(** * Tides and Currents playback script: a shallow embedding

    The program [allCombined_TridentPier.py] fetches six oceanographic
    parameters from the NOAA tides-and-currents API, computes the common
    time range of all returned records and replays the records into a
    stacked live chart.

    The script is a straight-line Python module.  Its values are the
    values [json.loads] produces, its failures are Python exceptions and
    its observable effects are [print] lines, calls on the charting
    library and [time.sleep].  The embedding keeps those three aspects:
    a [json] type with the Python operators the script applies to it, an
    error type, and a trace of events. *)

From Stdlib Require Import ZArith Lia List Ascii String Bool Sorted.
From Stdlib Require Import Floats.SpecFloat.
From stdpp Require Import base option list strings gmap.

Local Open Scope Z_scope.

(** ** Exceptions and results *)

(** The exceptions the script can die from.  [FetchFailure] stands for
    whatever [requests.get(url).json()] raises, [DateParseError] for
    whatever [pd.to_datetime] raises. *)
Inductive exn : Type :=
| KeyError
| TypeError
| IndexError
| ValueError
| NameError
| OverflowError
| ZeroDivisionError
| FetchFailure
| DateParseError.

#[global] Instance exn_eq_dec : EqDecision exn.
Proof. solve_decision. Defined.

Inductive result (A : Type) : Type :=
| Ok (a : A)
| Err (e : exn).
Arguments Ok {A} a.
Arguments Err {A} e.

(** ** Parsed JSON values

    [response.json()] yields [None], [bool], [int], [float], [str],
    [list] and [dict] with string keys.  A dict is kept as the list of its
    items in insertion order; lookup takes the first binding of a key. *)
#[warnings="-register-all"] Inductive json : Type :=
| JNull
| JBool (b : bool)
| JInt (z : Z)
| JFloat (f : spec_float)
| JStr (s : string)
| JArr (items : list json)
| JObj (fields : list (string * json)).

Fixpoint assoc {V : Type} (k : string) (kv : list (string * V)) : option V :=
  match kv with
  | [] => None
  | (k', v) :: rest => if String.eqb k k' then Some v else assoc k rest
  end.

(** [s in t] on two strings is substring search. *)
Fixpoint is_substring (p s : string) : bool :=
  String.prefix p s ||
  match s with
  | EmptyString => false
  | String _ s' => is_substring p s'
  end.

Definition json_is_str (k : string) (j : json) : bool :=
  match j with
  | JStr s => String.eqb k s
  | _ => false
  end.

(** [key in d] for a string [key]: key membership on a dict, element
    membership on a list, substring on a string, [TypeError] otherwise. *)
Definition py_in (key : string) (d : json) : result bool :=
  match d with
  | JObj kv => Ok (bool_decide (is_Some (assoc key kv)))
  | JArr l => Ok (existsb (json_is_str key) l)
  | JStr s => Ok (is_substring key s)
  | _ => Err TypeError
  end.

(** [d[key]] with a string key. *)
Definition py_getitem_str (d : json) (key : string) : result json :=
  match d with
  | JObj kv => match assoc key kv with Some v => Ok v | None => Err KeyError end
  | _ => Err TypeError
  end.

Definition string_nth (s : string) (i : nat) : option string :=
  match String.get i s with
  | Some c => Some (String c EmptyString)
  | None => None
  end.

(** [d[i]] with a non-negative integer index.  A dict parsed from JSON has
    string keys only, so an integer key is never found. *)
Definition py_getitem_int (d : json) (i : nat) : result json :=
  match d with
  | JArr l => match l !! i with Some v => Ok v | None => Err IndexError end
  | JStr s => match string_nth s i with Some c => Ok (JStr c) | None => Err IndexError end
  | JObj _ => Err KeyError
  | _ => Err TypeError
  end.

Definition string_chars (s : string) : list json :=
  map (fun c => JStr (String c EmptyString)) (list_ascii_of_string s).

(** [for entry in d]: the elements of a list, the keys of a dict, the
    characters of a string. *)
Definition py_iter (d : json) : result (list json) :=
  match d with
  | JArr l => Ok l
  | JObj kv => Ok (map (fun p => JStr (fst p)) kv)
  | JStr s => Ok (string_chars s)
  | _ => Err TypeError
  end.

Definition py_len (d : json) : result nat :=
  match d with
  | JArr l => Ok (length l)
  | JObj kv => Ok (length kv)
  | JStr s => Ok (String.length s)
  | _ => Err TypeError
  end.

Definition is_zero_float (f : spec_float) : bool :=
  match f with
  | S754_zero _ => true
  | _ => false
  end.

(** Truth value of an object in a boolean context. *)
Definition py_truthy (v : json) : bool :=
  match v with
  | JNull => false
  | JBool b => b
  | JInt z => negb (z =? 0)
  | JFloat f => negb (is_zero_float f)
  | JStr s => negb (String.eqb s "")
  | JArr l => match l with [] => false | _ => true end
  | JObj kv => match kv with [] => false | _ => true end
  end.

(** [v != ''] : only the empty string equals [''] . *)
Definition py_ne_empty (v : json) : bool :=
  match v with
  | JStr s => negb (String.eqb s "")
  | _ => true
  end.

(** ** Binary64 floats

    Python's [float] is an IEEE 754 binary64 number; it is represented by
    the standard library's [spec_float] (sign, mantissa, exponent).  Both
    conversions the script uses, [int / int] and [float(str)], round a
    rational number to the nearest double, ties to even. *)

Definition prec : Z := 53.
Definition emax : Z := 1024.

(** [ge_pow2 n d k] decides [2^k <= n/d] for positive [n], [d]. *)
Definition ge_pow2 (n d k : Z) : bool :=
  d * 2 ^ Z.max 0 k <=? n * 2 ^ Z.max 0 (- k).

(** The magnitude of [n/d]: the [e] with [2^(e-1) <= n/d < 2^e]. *)
Definition ratio_mag (n d : Z) : Z :=
  let k := Z.log2 n - Z.log2 d in
  if ge_pow2 n d k then k + 1 else k.

(** Nearest integer to [num/den], ties to the even one. *)
Definition round_half_even (num den : Z) : Z :=
  let q := num / den in
  match 2 * (num mod den) ?= den with
  | Lt => q
  | Gt => q + 1
  | Eq => if Z.even q then q else q + 1
  end.

(** The double nearest to [(-1)^neg * n/d], for [0 <= n] and [0 < d]:
    the quotient is scaled to the exponent of its binade (or to the
    subnormal exponent), rounded, renormalised when the rounding carried
    into the next binade, and replaced by an infinity when it exceeds the
    largest double. *)
Definition round_ratio (neg : bool) (n d : Z) : spec_float :=
  if n =? 0 then S754_zero neg
  else
    let e := fexp prec emax (ratio_mag n d) in
    let num := n * 2 ^ Z.max 0 (- e) in
    let den := d * 2 ^ Z.max 0 e in
    let m := round_half_even num den in
    let '(m', e') := if m =? 2 ^ prec then (2 ^ (prec - 1), e + 1) else (m, e) in
    match m' with
    | Zpos p => if e' <=? emax - prec then S754_finite neg p e' else S754_infinity neg
    | _ => S754_zero neg
    end.

Definition is_finite_float (f : spec_float) : bool :=
  match f with
  | S754_zero _ | S754_finite _ _ _ => true
  | _ => false
  end.

(** [a / b] on two Python ints: the correctly rounded quotient,
    [ZeroDivisionError] for a zero divisor, [OverflowError] when the
    quotient is too large for a float. *)
Definition true_divide (a b : Z) : result spec_float :=
  if b =? 0 then Err ZeroDivisionError
  else
    let f := round_ratio (xorb (a <? 0) (b <? 0)) (Z.abs a) (Z.abs b) in
    if is_finite_float f then Ok f else Err OverflowError.

(** [float(i)] for a Python int. *)
Definition float_of_int (z : Z) : result spec_float :=
  let f := round_ratio (z <? 0) (Z.abs z) 1 in
  if is_finite_float f then Ok f else Err OverflowError.

(** The double denoted by the decimal [(-1)^neg * m * 10^e]. *)
Definition round_decimal (neg : bool) (m e : Z) : spec_float :=
  round_ratio neg (m * 10 ^ Z.max 0 e) (10 ^ Z.max 0 (- e)).

(** *** [float(str)]

    The accepted strings are, after stripping whitespace,
    [[sign] (floatnumber | "inf" | "infinity" | "nan")] with
    [digitpart ::= digit (["_"] digit)*],
    [number ::= [digitpart] "." digitpart | digitpart ["."]] and
    [floatnumber ::= number [("e"|"E") [sign] digitpart]];
    [inf], [infinity] and [nan] in any letter case.  Characters are ASCII. *)

Definition is_space (c : ascii) : bool :=
  let n := N_of_ascii c in
  (((9 <=? n) && (n <=? 13)) || ((28 <=? n) && (n <=? 32)))%N.

Definition digit_val (c : ascii) : option Z :=
  let n := N_of_ascii c in
  if ((48 <=? n) && (n <=? 57))%N then Some (Z.of_N n - 48) else None.

Definition lower (c : ascii) : ascii :=
  let n := N_of_ascii c in
  if ((65 <=? n) && (n <=? 90))%N then ascii_of_N (n + 32) else c.

Fixpoint lstrip (s : list ascii) : list ascii :=
  match s with
  | c :: s' => if is_space c then lstrip s' else s
  | [] => []
  end.

Definition strip (s : list ascii) : list ascii :=
  rev (lstrip (rev (lstrip s))).

(** The digits after a first digit: [(["_"] digit)*], accumulating the
    number read so far and the count of digits. *)
Fixpoint digits_tail (m cnt : Z) (s : list ascii) : Z * Z * list ascii :=
  match s with
  | c :: s' =>
      match digit_val c with
      | Some v => digits_tail (10 * m + v) (cnt + 1) s'
      | None =>
          if Ascii.eqb c "_" then
            match s' with
            | c2 :: s'' =>
                match digit_val c2 with
                | Some v => digits_tail (10 * m + v) (cnt + 1) s''
                | None => (m, cnt, s)
                end
            | [] => (m, cnt, s)
            end
          else (m, cnt, s)
      end
  | [] => (m, cnt, s)
  end.

Definition digitpart (m : Z) (s : list ascii) : option (Z * Z * list ascii) :=
  match s with
  | c :: s' =>
      match digit_val c with
      | Some v => Some (digits_tail (10 * m + v) 1 s')
      | None => None
      end
  | [] => None
  end.

(** [number]: the digits read as one integer, the count of digits after
    the point, and the rest of the input. *)
Definition parse_number (s : list ascii) : option (Z * Z * list ascii) :=
  match digitpart 0 s with
  | Some (m, _, rest) =>
      match rest with
      | c :: rest' =>
          if Ascii.eqb c "." then
            match digitpart m rest' with
            | Some r => Some r
            | None => Some (m, 0, rest')
            end
          else Some (m, 0, rest)
      | [] => Some (m, 0, rest)
      end
  | None =>
      match s with
      | c :: rest' => if Ascii.eqb c "." then digitpart 0 rest' else None
      | [] => None
      end
  end.

Definition parse_sign (s : list ascii) : bool * list ascii :=
  match s with
  | c :: s' =>
      if Ascii.eqb c "-" then (true, s')
      else if Ascii.eqb c "+" then (false, s')
      else (false, s)
  | [] => (false, s)
  end.

(** [exponent], when present; [None] for a malformed one. *)
Definition parse_exponent (s : list ascii) : option (Z * list ascii) :=
  match s with
  | c :: s' =>
      if Ascii.eqb (lower c) "e" then
        let '(neg, s'') := parse_sign s' in
        match digitpart 0 s'' with
        | Some (x, _, rest) => Some (if neg then - x else x, rest)
        | None => None
        end
      else Some (0, s)
  | [] => Some (0, s)
  end.

Definition is_word (w : string) (s : list ascii) : bool :=
  bool_decide (map lower s = list_ascii_of_string w).

Definition float_of_string (str : string) : result spec_float :=
  let '(neg, body) := parse_sign (strip (list_ascii_of_string str)) in
  if is_word "inf" body || is_word "infinity" body then Ok (S754_infinity neg)
  else if is_word "nan" body then Ok S754_nan
  else
    match parse_number body with
    | Some (m, frac, rest) =>
        match parse_exponent rest with
        | Some (x, []) => Ok (round_decimal neg m (x - frac))
        | _ => Err ValueError
        end
    | None => Err ValueError
    end.

(** [float(v)] on a parsed JSON value. *)
Definition py_float (v : json) : result spec_float :=
  match v with
  | JStr s => float_of_string s
  | JInt z => float_of_int z
  | JBool b => float_of_int (if b then 1 else 0)
  | JFloat f => Ok f
  | _ => Err TypeError
  end.

(** ** Timestamps, minimum and maximum

    A [pd.Timestamp] is the instant it denotes, in nanoseconds since the
    epoch (its [.value]).  [min] and [max] scan the list from the left and
    replace the running result on a strict improvement; both raise
    [ValueError] on an empty list. *)

Definition py_min (l : list Z) : result Z :=
  match l with
  | [] => Err ValueError
  | x :: rest => Ok (fold_left (fun best t => if t <? best then t else best) rest x)
  end.

Definition py_max (l : list Z) : result Z :=
  match l with
  | [] => Err ValueError
  | x :: rest => Ok (fold_left (fun best t => if t >? best then t else best) rest x)
  end.

(** ** Observable events *)

Inductive log_msg : Type :=
| UnexpectedStructure (param : string) (data : json)
| MissingData (param : string) (timestamp : Z).

(** Calls on the charting library.  A y-axis and its line series are
    identified by the stack index, respectively the parameter name, they
    were created for. *)
Inductive chart_call : Type :=
| SetLicense (key : string)
| NewChartXY (theme : string)
| SetTitle (title : string)
| XSetTickStrategy (strategy : string)
| XSetInterval (lo hi : spec_float)
| XSetTitle (title : string)
| DisposeDefaultYAxis
| AddYAxis (stack_index : nat)
| YSetMargins (stack_index : nat) (top bottom : Z)
| YSetTitle (stack_index : nat) (title : string)
| YSetInterval (stack_index : nat) (lo hi : Z)
| AddLineSeries (param : string) (stack_index : nat) (data_pattern : string)
| SeriesSetName (param : string) (name : string)
| ChartOpen (live : bool)
| SeriesAdd (param : string) (x y : spec_float).

Inductive event : Type :=
| Print (msg : log_msg)
| Chart (call : chart_call)
| Sleep (seconds : spec_float).

(** ** The effect monad: a trace of events and a result or an exception.

    An exception ends the run; the events emitted before it stay in the
    trace. *)
Definition M (A : Type) : Type := list event * result A.

Definition ret {A} (a : A) : M A := ([], Ok a).

Definition bind {A B} (m : M A) (f : A -> M B) : M B :=
  match m with
  | (t, Ok a) => let '(t', r) := f a in (t ++ t', r)
  | (t, Err e) => (t, Err e)
  end.

Definition emit (ev : event) : M unit := ([ev], Ok tt).

Definition raise {A} (e : exn) : M A := ([], Err e).

Definition lift {A} (r : result A) : M A := ([], r).

Definition from_option {A} (e : exn) (o : option A) : M A :=
  match o with
  | Some a => ret a
  | None => raise e
  end.

Notation "x <- m ;; k" := (bind m (fun x => k))
  (at level 100, m at next level, right associativity).
Notation "m ;;; k" := (bind m (fun _ => k))
  (at level 100, right associativity).

(** [for x in l: st = body(st, x)] *)
Fixpoint for_each {A S} (l : list A) (body : S -> A -> M S) (st : S) : M S :=
  match l with
  | [] => ret st
  | x :: rest => st' <- body st x ;; for_each rest body st'
  end.

(** ** The script *)

(** The [urls] dict, in insertion order. *)
Definition urls : list (string * string) :=
  [ ("wind", "https://api.tidesandcurrents.noaa.gov/api/prod/datagetter?begin_date=20241008&end_date=20241012&station=8721604&product=wind&datum=MHHW&time_zone=gmt&units=metric&format=json");
    ("air_pressure", "https://api.tidesandcurrents.noaa.gov/api/prod/datagetter?begin_date=20241008&end_date=20241012&station=8721604&product=air_pressure&datum=MHHW&time_zone=gmt&units=metric&format=json");
    ("water_level", "https://api.tidesandcurrents.noaa.gov/api/prod/datagetter?begin_date=20241008&end_date=20241012&station=8721604&product=water_level&datum=MHHW&time_zone=gmt&units=metric&format=json");
    ("tide_predictions", "https://api.tidesandcurrents.noaa.gov/api/prod/datagetter?begin_date=20241008&end_date=20241012&station=8721604&product=predictions&datum=MHHW&time_zone=gmt&units=metric&format=json");
    ("water_temperature", "https://api.tidesandcurrents.noaa.gov/api/prod/datagetter?begin_date=20241008&end_date=20241012&station=8721604&product=water_temperature&datum=MHHW&time_zone=gmt&units=metric&format=json");
    ("air_temperature", "https://api.tidesandcurrents.noaa.gov/api/prod/datagetter?begin_date=20241008&end_date=20241012&station=8721604&product=air_temperature&datum=MHHW&time_zone=gmt&units=metric&format=json")
  ]%string.

Definition y_axis_units : list (string * string) :=
  [ ("wind", "Wind (m/s)");
    ("air_pressure", "Pressure (hPa)");
    ("water_level", "Water Lvl (m)");
    ("tide_predictions", "Tide Pred. (m)");
    ("water_temperature", "Water Temp (°C)");
    ("air_temperature", "Air Temp (°C)")
  ]%string.

(** The five parameters listed in the [elif] of the playback loop. *)
Definition v_params : list string :=
  [ "air_pressure"; "water_level"; "tide_predictions";
    "water_temperature"; "air_temperature" ]%string.

(** [0.03], the argument of [time.sleep]. *)
Definition sleep_delay : spec_float := round_decimal false 3 (-2).

Section Script.

(** [requests.get(url).json()]: the parsed body, or [None] when the
    request or the parsing raises; the script does not catch it. *)
Variable get_json : string -> option json.

(** [pd.to_datetime(v)]: the instant in nanoseconds since the epoch, or
    [None] when pandas raises.  Both library calls are parameters of the
    script; every property below holds for all of their behaviours. *)
Variable to_datetime : json -> option Z.

(** *** Fetching *)

(** [for entry in series: timestamps.append(pd.to_datetime(entry['t']))] *)
Definition collect_timestamps (series : json) (timestamps : list Z) : M (list Z) :=
  entries <- lift (py_iter series) ;;
  for_each entries
    (fun ts entry =>
       t <- lift (py_getitem_str entry "t") ;;
       stamp <- from_option DateParseError (to_datetime t) ;;
       ret (ts ++ [stamp]))
    timestamps.

(** One round of the fetch loop, on the state
    [(data_store, timestamps)]. *)
Definition fetch_param (st : gmap string json * list Z) (item : string * string)
  : M (gmap string json * list Z) :=
  let '(data_store, timestamps) := st in
  let '(param, url) := item in
  data <- from_option FetchFailure (get_json url) ;;
  has_data <- lift (py_in "data" data) ;;
  if has_data then
    series <- lift (py_getitem_str data "data") ;;
    let data_store := <[param := series]> data_store in
    timestamps <- collect_timestamps series timestamps ;;
    ret (data_store, timestamps)
  else
    has_predictions <- lift (py_in "predictions" data) ;;
    if has_predictions then
      series <- lift (py_getitem_str data "predictions") ;;
      let data_store := <[param := series]> data_store in
      timestamps <- collect_timestamps series timestamps ;;
      ret (data_store, timestamps)
    else
      emit (Print (UnexpectedStructure param data)) ;;;
      ret (data_store, timestamps).

Definition fetch : M (gmap string json * list Z) :=
  for_each urls fetch_param (∅, []).

(** *** The time range *)

Definition time_range (timestamps : list Z) : M (Z * Z) :=
  min_time <- lift (py_min timestamps) ;;
  max_time <- lift (py_max timestamps) ;;
  ret (min_time, max_time).

(** [t.value / 10**6] *)
Definition to_ms (t : Z) : M spec_float := lift (true_divide t (10 ^ 6)).

(** *** Chart set-up *)

(** One round of the axis loop; the state is the [series_list] dict, of
    which only the keys, in insertion order, matter. *)
Definition add_axis (series_list : list string) (item : nat * string) : M (list string) :=
  let '(i, param) := item in
  emit (Chart (AddYAxis i)) ;;;
  emit (Chart (YSetMargins i (if (0 <? i)%nat then 15 else 0)
                             (if (i <? length urls - 1)%nat then 15 else 0))) ;;;
  title <- from_option KeyError (assoc param y_axis_units) ;;
  emit (Chart (YSetTitle i title)) ;;;
  emit (Chart (YSetInterval i 0 1)) ;;;
  emit (Chart (AddLineSeries param i "ProgressiveX")) ;;;
  name <- from_option KeyError (assoc param y_axis_units) ;;
  emit (Chart (SeriesSetName param name)) ;;;
  ret (if bool_decide (param ∈ series_list) then series_list
       else series_list ++ [param]).

Definition setup_chart (min_time_ms max_time_ms : spec_float) : M (list string) :=
  emit (Chart (NewChartXY "Dark")) ;;;
  emit (Chart (SetTitle "All Parameters at Trident Pier (Oct 8-12, 2024) - Simulated Real-time")) ;;;
  emit (Chart (XSetTickStrategy "DateTime")) ;;;
  emit (Chart (XSetInterval min_time_ms max_time_ms)) ;;;
  emit (Chart (XSetTitle "Time (GMT)")) ;;;
  emit (Chart DisposeDefaultYAxis) ;;;
  series_list <- for_each (imap (fun i item => (i, fst item)) urls) add_axis [] ;;
  emit (Chart (ChartOpen true)) ;;;
  ret series_list.

(** *** Playback *)

(** The body of the inner loop for one parameter at position [i].  The
    state is the module-level variable [value_str], unbound ([None])
    until its first assignment. *)
Definition play_param (data_store : gmap string json) (i : nat)
    (value_str : option json) (param : string) : M (option json) :=
  series <- from_option KeyError (data_store !! param) ;;
  entry <- lift (py_getitem_int series i) ;;
  t <- lift (py_getitem_str entry "t") ;;
  timestamp <- from_option DateParseError (to_datetime t) ;;
  x_value <- to_ms timestamp ;;
  value_str <-
    (if String.eqb param "wind" then
       s <- lift (py_getitem_str entry "s") ;; ret (Some s)
     else if bool_decide (param ∈ v_params) then
       v <- lift (py_getitem_str entry "v") ;; ret (Some v)
     else ret value_str) ;;
  value <- from_option NameError value_str ;;
  (if py_truthy value && py_ne_empty value then
     y_value <- lift (py_float value) ;;
     emit (Chart (SeriesAdd param x_value y_value))
   else
     emit (Print (MissingData param timestamp))) ;;;
  ret value_str.

(** One round of the outer loop. *)
Definition play_position (data_store : gmap string json) (series_list : list string)
    (value_str : option json) (i : nat) : M (option json) :=
  value_str <- for_each series_list (play_param data_store i) value_str ;;
  emit (Sleep sleep_delay) ;;;
  ret value_str.

Definition playback (data_store : gmap string json) (series_list : list string)
  : M (option json) :=
  wind <- from_option KeyError (data_store !! "wind"%string) ;;
  n <- lift (py_len wind) ;;
  for_each (seq 0 n) (play_position data_store series_list) None.

(** *** The whole module *)
Definition script : M unit :=
  emit (Chart (SetLicense "LICENSE_KEY")) ;;;
  st <- fetch ;;
  let '(data_store, timestamps) := st in
  range <- time_range timestamps ;;
  let '(min_time, max_time) := range in
  min_time_ms <- to_ms min_time ;;
  max_time_ms <- to_ms max_time ;;
  series_list <- setup_chart min_time_ms max_time_ms ;;
  playback data_store series_list ;;;
  ret tt.

End Script.

(** ** Reading a URL

    [urlsplit] restricted to what the six URLs use: scheme and host up to
    the first [/] after [://], the path up to [?], and the query as
    [key=value] pairs separated by [&]. *)

Fixpoint split_at (c : ascii) (s : string) : string * option string :=
  match s with
  | EmptyString => (EmptyString, None)
  | String a s' =>
      if Ascii.eqb a c then (EmptyString, Some s')
      else let '(h, t) := split_at c s' in (String a h, t)
  end.

Fixpoint split_on (fuel : nat) (c : ascii) (s : string) : list string :=
  match fuel with
  | O => [s]
  | S fuel' =>
      match split_at c s with
      | (h, Some t) => h :: split_on fuel' c t
      | (h, None) => [h]
      end
  end.

Definition key_value (s : string) : string * string :=
  match split_at "=" s with
  | (k, Some v) => (k, v)
  | (k, None) => (k, EmptyString)
  end.

Definition url_query (url : string) : list (string * string) :=
  match split_at "?" url with
  | (_, Some q) => map key_value (split_on (String.length q) "&" q)
  | (_, None) => []
  end.

(** Scheme with host, and path. *)
Definition url_origin_path (url : string) : string * string :=
  let '(base, _) := split_at "?" url in
  match split_at ":" base with
  | (scheme, Some rest) =>
      match rest with
      | String "/" (String "/" rest') =>
          match split_at "/" rest' with
          | (host, Some path) => (scheme +:+ "://" +:+ host, String "/" path)
          | (host, None) => (scheme +:+ "://" +:+ host, EmptyString)
          end
      | _ => (base, EmptyString)
      end
  | (_, None) => (base, EmptyString)
  end.

(** The value of the [product] query parameter for each parameter name. *)
Definition product_of (param : string) : string :=
  if String.eqb param "tide_predictions" then "predictions"%string else param.

Definition query_of (product : string) : list (string * string) :=
  [ ("begin_date", "20241008"); ("end_date", "20241012"); ("station", "8721604");
    ("product", product); ("datum", "MHHW"); ("time_zone", "gmt");
    ("units", "metric"); ("format", "json") ]%string.

(** ** Notions the properties are stated with *)

(** The instant of a record: [pd.to_datetime(entry['t'])]. *)
Definition stamp_of (to_datetime : json -> option Z) (entry : json) : option Z :=
  match py_getitem_str entry "t" with
  | Ok t => to_datetime t
  | Err _ => None
  end.

(** [t] is the instant of the record at position [i] of the series stored
    for [param]. *)
Definition observation (to_datetime : json -> option Z) (data_store : gmap string json)
    (param : string) (i : nat) (t : Z) : Prop :=
  exists series entry,
    data_store !! param = Some series /\
    py_getitem_int series i = Ok entry /\
    stamp_of to_datetime entry = Some t.

(** The record list the fetch loop takes from a response: the [data]
    field, else the [predictions] field, else nothing. *)
Definition selected_series (data : json) : option json :=
  match data with
  | JObj kv =>
      match assoc "data" kv with
      | Some v => Some v
      | None => assoc "predictions" kv
      end
  | _ => None
  end.

(** The field the playback loop reads the value from. *)
Definition value_field (param : string) : string :=
  if String.eqb param "wind" then "s"%string else "v"%string.

(** [Timestamp.value] is a 64-bit integer. *)
Definition int64 (t : Z) : bool := (- 2 ^ 63 <=? t) && (t <? 2 ^ 63).









(** [series] has at least [n] positions. *)
Definition covers (n : nat) (series : json) : bool :=
  match py_len series with
  | Ok len => (n <=? len)%nat
  | Err _ => false
  end.

(** Every event of a computation satisfies [P], whether it ends well or
    not. *)
Definition emits {A : Type} (P : event -> Prop) (m : M A) : Prop :=
  forall ev, ev ∈ fst m -> P ev.

(** The final state of a run that ended well ([d] otherwise). *)
Definition final_state {A : Type} (d : A) (m : M A) : A :=
  match snd m with
  | Ok a => a
  | Err _ => d
  end.

(** [2.5] as a double: [5629499534213120 * 2^-51]. *)
Definition float_2_5 : spec_float := S754_finite false 5629499534213120 (-51).

(** ** A concrete environment

    The API writes timestamps as [YYYY-MM-DD HH:MM].  On such a string
    [pd.to_datetime] yields the instant it denotes, read as UTC;
    [api_to_datetime] computes that instant and is [None] on any other
    value.  It instantiates the [to_datetime] parameter where a property
    is evaluated on sample data; the properties themselves are proved for
    every [to_datetime]. *)

Definition two_digits (a b : ascii) : option Z :=
  match digit_val a, digit_val b with
  | Some x, Some y => Some (10 * x + y)
  | _, _ => None
  end.

(** Days from 1970-01-01 to the given proleptic Gregorian date. *)
Definition days_from_civil (y m d : Z) : Z :=
  let y' := if m <=? 2 then y - 1 else y in
  let era := y' / 400 in
  let yoe := y' - era * 400 in
  let doy := (153 * (if 2 <? m then m - 3 else m + 9) + 2) / 5 + d - 1 in
  let doe := yoe * 365 + yoe / 4 - yoe / 100 + doy in
  era * 146097 + doe - 719468.

Definition days_in_month (y m : Z) : Z :=
  if m =? 2 then
    if ((y mod 4 =? 0) && negb (y mod 100 =? 0)) || (y mod 400 =? 0) then 29 else 28
  else if (m =? 4) || (m =? 6) || (m =? 9) || (m =? 11) then 30
  else 31.

Definition api_to_datetime (v : json) : option Z :=
  match v with
  | JStr s =>
      match list_ascii_of_string s with
      | [y1; y2; y3; y4; d1; m1; m2; d2; a1; a2; sp; h1; h2; c; n1; n2] =>
          match two_digits y1 y2, two_digits y3 y4, two_digits m1 m2,
                two_digits a1 a2, two_digits h1 h2, two_digits n1 n2 with
          | Some yh, Some yl, Some mo, Some da, Some ho, Some mi =>
              let y := 100 * yh + yl in
              if Ascii.eqb d1 "-" && Ascii.eqb d2 "-" && Ascii.eqb sp " " && Ascii.eqb c ":"
                 && (1677 <? y) && (y <? 2262)
                 && (1 <=? mo) && (mo <=? 12) && (1 <=? da) && (da <=? days_in_month y mo)
                 && (ho <? 24) && (mi <? 60)
              then Some (((days_from_civil y mo da * 24 + ho) * 60 + mi) * 60 * 10 ^ 9)
              else None
          | _, _, _, _, _, _ => None
          end
      | _ => None
      end
  | _ => None
  end.

(** Canned responses, keyed by parameter name: a request for the URL of a
    parameter is answered with that parameter's body. *)
Definition url_param (url : string) : option string :=
  fst <$> find (fun item => String.eqb (snd item) url) urls.

Definition respond (table : list (string * json)) (url : string) : option json :=
  match url_param url with
  | Some param => assoc param table
  | None => None
  end.

(** The fields of a wind record and of a record of the other products. *)
Definition wind_fields (t s : string) : list (string * json) :=
  [("t", JStr t); ("s", JStr s); ("d", JStr "45.00"); ("dr", JStr "NE");
   ("g", JStr "3.1"); ("f", JStr "0,0")]%string.

Definition wind_record (t s : string) : json := JObj (wind_fields t s).

Definition value_record (t v : string) : json :=
  JObj [("t", JStr t); ("v", JStr v); ("f", JStr "0,0,0")]%string.

Definition data_body (records : list json) : json :=
  JObj [("metadata", JObj [("id", JStr "8721604"); ("name", JStr "Trident Pier, Port Canaveral")]);
        ("data", JArr records)]%string.

Definition error_body : json :=
  JObj [("error", JObj [("message", JStr "No data was found.")])]%string.

Definition sample_bodies : list (string * json) :=
  [ ("wind", data_body [wind_record "2024-10-08 00:00" "2.5"; wind_record "2024-10-08 00:06" ""]);
    ("air_pressure", data_body [value_record "2024-10-08 00:00" "1015.2";
                                value_record "2024-10-08 00:06" "1015.1"]);
    ("water_level", data_body [value_record "2024-10-08 00:00" "-0.123";
                               value_record "2024-10-08 00:06" ""]);
    ("tide_predictions",
       JObj [("predictions", JArr [JObj [("t", JStr "2024-10-08 00:00"); ("v", JStr "-0.201")];
                                   JObj [("t", JStr "2024-10-08 00:06"); ("v", JStr "-0.188")]])]);
    ("water_temperature", data_body [value_record "2024-10-08 00:00" "27.9";
                                     value_record "2024-10-08 00:06" "27.9"]);
    ("air_temperature", data_body [value_record "2024-10-08 00:00" "26.1";
                                   value_record "2024-10-08 00:06" "26.0"])
  ]%string.

(** The same, with the API's error body for one parameter. *)
Definition bodies_with_error (param : string) : list (string * json) :=
  map (fun item => if String.eqb (fst item) param then (fst item, error_body) else item)
      sample_bodies.

(** Every request answered by a body with an empty record list. *)
Definition empty_bodies : list (string * json) :=
  map (fun item => (fst item, data_body [])) sample_bodies.

(** Bodies in which one wind value is not a number. *)
Definition bodies_with_text_value : list (string * json) :=
  map (fun item =>
         if String.eqb (fst item) "wind"
         then (fst item, data_body [wind_record "2024-10-08 00:00" "2.5";
                                    wind_record "2024-10-08 00:06" "N/A"])
         else item)
      sample_bodies.

Definition wind_url : string :=
  "https://api.tidesandcurrents.noaa.gov/api/prod/datagetter?begin_date=20241008&end_date=20241012&station=8721604&product=wind&datum=MHHW&time_zone=gmt&units=metric&format=json".

(** Three fetches: every body as the API sends it, the wind body replaced
    by the API's error body, and every body with an empty record list. *)
Definition sample_fetch : M (gmap string json * list Z) :=
  fetch (respond sample_bodies) api_to_datetime.

Definition wind_error_fetch : M (gmap string json * list Z) :=
  fetch (respond (bodies_with_error "wind")) api_to_datetime.

Definition empty_fetch : M (gmap string json * list Z) :=
  fetch (respond empty_bodies) api_to_datetime.

(** The dataset of the sample fetch. *)
Definition sample_store : gmap string json := fst (final_state (∅, []) sample_fetch).






(** * Properties *)

(** ** The monad *)

(** A computation that ends well decomposes at every bind. *)
Lemma bind_inv_ok {A B} (m : M A) (f : A -> M B) (t : list event) (b : B) :
  bind m f = (t, Ok b) ->
  exists t1 a t2, m = (t1, Ok a) /\ f a = (t2, Ok b) /\ t = t1 ++ t2.
Proof.
  destruct m as [t1 [a|e]]; simpl; [|discriminate].
  destruct (f a) as [t2 r] eqn:E. intros H. injection H as <- ->.
  exists t1, a, t2. auto.
Qed.

(** Every event of a bind comes from one of its two parts. *)
Lemma bind_event {A B} (m : M A) (f : A -> M B) (ev : event) :
  ev ∈ fst (bind m f) ->
  ev ∈ fst m \/ exists t a, m = (t, Ok a) /\ ev ∈ fst (f a).
Proof.
  destruct m as [t1 [a|e]]; simpl; [|auto].
  destruct (f a) as [t2 r] eqn:E. simpl. rewrite elem_of_app.
  intros [H|H]; [auto|]. right. exists t1, a. rewrite E. auto.
Qed.

Lemma bind_err_inv {A B} (m : M A) (f : A -> M B) tr e :
  bind m f = (tr, Err e) ->
  (exists t, m = (t, Err e)) \/ (exists t a t', m = (t, Ok a) /\ f a = (t', Err e)).
Proof.
  destruct m as [t [a|e1]]; simpl.
  - destruct (f a) as [t' r] eqn:Hf. intros [= <- ->]. right. eauto.
  - intros [= <- <-]. left. eauto.
Qed.

Lemma from_option_err {A} e0 (o : option A) t e : from_option e0 o = (t, Err e) -> e = e0.
Proof. destruct o; simpl; [discriminate|]. intros [= _ <-]. reflexivity. Qed.

Lemma from_option_ok {A} e0 (o : option A) t a : from_option e0 o = (t, Ok a) -> o = Some a.
Proof. destruct o; simpl; [|discriminate]. intros [= _ <-]. reflexivity. Qed.

Lemma lift_inv {A} (r r' : result A) t : lift r = (t, r') -> r = r'.
Proof. intros [= _ <-]. reflexivity. Qed.

Lemma for_each_cons_inv {A S} (x : A) (l : list A) (body : S -> A -> M S) st tr st' :
  for_each (x :: l) body st = (tr, Ok st') ->
  exists t1 s1 t2, body st x = (t1, Ok s1) /\ for_each l body s1 = (t2, Ok st') /\
                   tr = t1 ++ t2.
Proof. simpl. apply bind_inv_ok. Qed.

(** A failing loop fails in one of its rounds. *)
Lemma for_each_err {A S} (l : list A) (body : S -> A -> M S) st tr e :
  for_each l body st = (tr, Err e) ->
  exists x st' tr', x ∈ l /\ body st' x = (tr', Err e).
Proof.
  revert st tr. induction l as [|x l IH]; intros st tr; simpl; [discriminate|].
  destruct (body st x) as [t1 [s1|e1]] eqn:Hb; simpl.
  - destruct (for_each l body s1) as [t2 r2] eqn:Hl. intros [= <- ->].
    destruct (IH _ _ Hl) as (y & st' & tr' & Hy & Hbody).
    exists y, st', tr'. split; [right; exact Hy|exact Hbody].
  - intros [= <- <-]. exists x, st, t1. split; [left|exact Hb].
Qed.

(** *** Events of a computation *)

Lemma emits_ret {A} P (a : A) : emits P (ret a).
Proof. intros ev H. inversion H. Qed.

Lemma emits_lift {A} P (r : result A) : emits P (lift r).
Proof. intros ev H. inversion H. Qed.

Lemma emits_raise {A} P (e : exn) : emits P (@raise A e).
Proof. intros ev H. inversion H. Qed.

Lemma emits_from_option {A} P (e : exn) (o : option A) : emits P (from_option e o).
Proof. destruct o; [apply emits_ret|apply emits_raise]. Qed.

Lemma emits_emit P (ev : event) : P ev -> emits P (emit ev).
Proof. intros H ev' Hin. apply list_elem_of_singleton in Hin as ->. exact H. Qed.

Lemma emits_bind {A B} P (m : M A) (f : A -> M B) :
  emits P m -> (forall t a, m = (t, Ok a) -> emits P (f a)) -> emits P (bind m f).
Proof.
  intros Hm Hf ev Hin. apply bind_event in Hin as [Hin|(t & a & -> & Hin)].
  - apply Hm, Hin.
  - eapply Hf; [reflexivity|exact Hin].
Qed.

Lemma emits_for_each {A S} P (l : list A) (body : S -> A -> M S) :
  (forall st x, x ∈ l -> emits P (body st x)) ->
  forall st, emits P (for_each l body st).
Proof.
  induction l as [|x l IH]; intros Hb st; simpl.
  - apply emits_ret.
  - apply emits_bind; [apply Hb; left|]. intros _ st' _. apply IH.
    intros s y Hy. apply Hb. right. exact Hy.
Qed.

(** ** Request URLs *)

(** C8, as the code has it: every request goes to the NOAA host and path
    and carries exactly the eight query parameters, [product] being the
    parameter's name except for [tide_predictions], whose product is
    [predictions]. *)
Theorem urls_query_parameters :
  Forall (fun item =>
            url_origin_path (snd item)
              = ("https://api.tidesandcurrents.noaa.gov"%string, "/api/prod/datagetter"%string)
            /\ url_query (snd item) = query_of (product_of (fst item)))
         urls
  /\ map fst urls = ("wind" :: v_params)%string.
Proof. split; [repeat constructor|reflexivity]. Qed.

(** C8 as stated fails: the URL of [tide_predictions] does not carry the
    parameter's own name as [product]. *)
Lemma urls_product_not_always_param :
  ~ Forall (fun item => assoc "product" (url_query (snd item)) = Some (fst item)) urls.
Proof.
  intros H. rewrite Forall_forall in H.
  specialize (H ("tide_predictions"%string, _) ltac:(do 3 right; left)).
  vm_compute in H. discriminate.
Qed.

(** ** Minimum and maximum *)

Lemma fold_min_spec (rest : list Z) (x : Z) :
  let m := fold_left (fun best t => if t <? best then t else best) rest x in
  m ∈ x :: rest /\ forall t, t ∈ x :: rest -> m <= t.
Proof.
  revert x. induction rest as [|y rest IH]; intros x; simpl.
  - split; [left|]. intros t Ht. apply list_elem_of_singleton in Ht. lia.
  - destruct (IH (if y <? x then y else x)) as [Hin Hle]. split.
    + apply elem_of_cons in Hin as [->|Hin].
      * destruct (y <? x); [right; left | left].
      * do 2 right. exact Hin.
    + intros t Ht.
      assert (Hm : forall u, u ∈ (if y <? x then y else x) :: rest ->
                             fold_left (fun best t => if t <? best then t else best) rest
                               (if y <? x then y else x) <= u) by exact Hle.
      pose proof (Hm _ ltac:(left)) as H0.
      apply elem_of_cons in Ht as [->|Ht]; [destruct (Z.ltb_spec y x); lia|].
      apply elem_of_cons in Ht as [->|Ht]; [destruct (Z.ltb_spec y x); lia|].
      apply Hm. right. exact Ht.
Qed.

Lemma fold_max_spec (rest : list Z) (x : Z) :
  let m := fold_left (fun best t => if t >? best then t else best) rest x in
  m ∈ x :: rest /\ forall t, t ∈ x :: rest -> t <= m.
Proof.
  revert x. induction rest as [|y rest IH]; intros x; simpl.
  - split; [left|]. intros t Ht. apply list_elem_of_singleton in Ht. lia.
  - destruct (IH (if y >? x then y else x)) as [Hin Hle]. split.
    + apply elem_of_cons in Hin as [->|Hin].
      * destruct (y >? x); [right; left | left].
      * do 2 right. exact Hin.
    + intros t Ht.
      assert (Hm : forall u, u ∈ (if y >? x then y else x) :: rest ->
                             u <= fold_left (fun best t => if t >? best then t else best) rest
                               (if y >? x then y else x)) by exact Hle.
      pose proof (Hm _ ltac:(left)) as H0.
      apply elem_of_cons in Ht as [->|Ht]; [destruct (Z.gtb_spec y x); lia|].
      apply elem_of_cons in Ht as [->|Ht]; [destruct (Z.gtb_spec y x); lia|].
      apply Hm. right. exact Ht.
Qed.

Lemma py_min_spec (l : list Z) :
  l <> [] -> exists m, py_min l = Ok m /\ m ∈ l /\ forall t, t ∈ l -> m <= t.
Proof.
  destruct l as [|x rest]; [congruence|]. intros _.
  eexists. split; [reflexivity|]. apply fold_min_spec.
Qed.

Lemma py_max_spec (l : list Z) :
  l <> [] -> exists m, py_max l = Ok m /\ m ∈ l /\ forall t, t ∈ l -> t <= m.
Proof.
  destruct l as [|x rest]; [congruence|]. intros _.
  eexists. split; [reflexivity|]. apply fold_max_spec.
Qed.

(** ** The fetch loop *)

Section FetchProperties.

Variable get_json : string -> option json.
Variable to_datetime : json -> option Z.

Local Abbreviation stamp := (stamp_of to_datetime).
Local Abbreviation collect := (collect_timestamps to_datetime).
Local Abbreviation step := (fetch_param get_json to_datetime).

Lemma collect_entries_inv (entries : list json) (ts ts' : list Z) (tr : list event) :
  for_each entries
    (fun ts entry =>
       t <- lift (py_getitem_str entry "t") ;;
       stamp <- from_option DateParseError (to_datetime t) ;;
       ret (ts ++ [stamp]))
    ts = (tr, Ok ts') ->
  tr = [] /\ exists stamps,
    ts' = ts ++ stamps /\ Forall2 (fun e t => stamp e = Some t) entries stamps.
Proof.
  revert ts tr. induction entries as [|e entries IH]; intros ts tr; simpl.
  - intros [= <- <-]. split; [reflexivity|]. exists []. rewrite app_nil_r. auto.
  - destruct (py_getitem_str e "t") as [tj|] eqn:Et; simpl; [|discriminate].
    destruct (to_datetime tj) as [t|] eqn:Ed; simpl; [|discriminate].
    destruct (for_each entries _ (ts ++ [t])) as [tr1 r1] eqn:E.
    intros [= <- ->]. apply IH in E as [-> (stamps & -> & HF)].
    split; [reflexivity|]. exists (t :: stamps). rewrite <- app_assoc. split; [reflexivity|].
    constructor; [|exact HF]. unfold stamp_of. rewrite Et. exact Ed.
Qed.

Lemma collect_inv (series : json) (ts ts' : list Z) (tr : list event) :
  collect series ts = (tr, Ok ts') ->
  tr = [] /\ exists entries stamps,
    py_iter series = Ok entries /\ ts' = ts ++ stamps /\
    Forall2 (fun e t => stamp e = Some t) entries stamps.
Proof.
  unfold collect_timestamps. destruct (py_iter series) as [entries|]; simpl; [|discriminate].
  destruct (for_each entries _ ts) as [tr1 r1] eqn:E. intros [= <- ->].
  apply collect_entries_inv in E as [-> (stamps & -> & HF)].
  split; [reflexivity|]. exists entries, stamps. auto.
Qed.

(** What [in] and the subscript decide is [selected_series]. *)
Lemma select_data (data series : json) :
  py_in "data" data = Ok true -> py_getitem_str data "data" = Ok series ->
  selected_series data = Some series.
Proof.
  destruct data; simpl; try discriminate. intros _.
  destruct (assoc "data" fields); congruence.
Qed.

Lemma select_predictions (data series : json) :
  py_in "data" data = Ok false -> py_in "predictions" data = Ok true ->
  py_getitem_str data "predictions" = Ok series ->
  selected_series data = Some series.
Proof.
  destruct data; simpl; try discriminate. intros [= H] _.
  apply bool_decide_eq_false in H.
  destruct (assoc "data" fields); [exfalso; apply H; eauto|].
  destruct (assoc "predictions" fields); congruence.
Qed.

Lemma select_none (data : json) :
  py_in "data" data = Ok false -> py_in "predictions" data = Ok false ->
  selected_series data = None.
Proof.
  destruct data; simpl; try reflexivity. intros [= H1] [= H2].
  apply bool_decide_eq_false in H1, H2.
  destruct (assoc "data" fields); [exfalso; apply H1; eauto|].
  destruct (assoc "predictions" fields); [exfalso; apply H2; eauto|reflexivity].
Qed.

(** One successful round either stores the selected series and appends
    the instants of all its records, or logs and changes nothing. *)
Lemma fetch_param_inv ds pool param url tr ds' pool' :
  step (ds, pool) (param, url) = (tr, Ok (ds', pool')) ->
  exists data, get_json url = Some data /\
    ((exists series entries stamps,
        selected_series data = Some series /\ tr = [] /\
        ds' = <[param := series]> ds /\ py_iter series = Ok entries /\
        pool' = pool ++ stamps /\
        Forall2 (fun e t => stamp e = Some t) entries stamps)
     \/ (selected_series data = None /\ ds' = ds /\ pool' = pool /\
         tr = [Print (UnexpectedStructure param data)])).
Proof.
  unfold fetch_param. destruct (get_json url) as [data|]; simpl; [|discriminate].
  intros H. exists data. split; [reflexivity|].
  destruct (py_in "data" data) as [[|]|] eqn:Hd; simpl in H; [| |discriminate].
  - destruct (py_getitem_str data "data") as [series|] eqn:Hs; simpl in H; [|discriminate].
    destruct (collect series pool) as [tr1 [ts|]] eqn:Hc; simpl in H; [|discriminate].
    injection H as <- <- <-.
    apply collect_inv in Hc as [-> (entries & stamps & Hi & -> & HF)].
    left. exists series, entries, stamps. eauto 10 using select_data.
  - destruct (py_in "predictions" data) as [[|]|] eqn:Hp; simpl in H; [| |discriminate].
    + destruct (py_getitem_str data "predictions") as [series|] eqn:Hs;
        simpl in H; [|discriminate].
      destruct (collect series pool) as [tr1 [ts|]] eqn:Hc; simpl in H; [|discriminate].
      injection H as <- <- <-.
      apply collect_inv in Hc as [-> (entries & stamps & Hi & -> & HF)].
      left. exists series, entries, stamps. eauto 10 using select_predictions.
    + injection H as <- <- <-. right. eauto using select_none.
Qed.

(** A response object with neither key is logged and skipped: the round
    leaves the dataset and the pool as they were. *)
Lemma fetch_param_skip st param url kv :
  get_json url = Some (JObj kv) ->
  assoc "data" kv = None -> assoc "predictions" kv = None ->
  step st (param, url) = ([Print (UnexpectedStructure param (JObj kv))], Ok st).
Proof.
  intros Hg Hd Hp. destruct st as [ds pool]. unfold fetch_param. rewrite Hg. simpl.
  rewrite Hd, Hp. rewrite !bool_decide_eq_false_2 by (intros [? ?]; discriminate).
  reflexivity.
Qed.


Lemma iterated_entry_observed series entries stamps t :
  py_iter series = Ok entries ->
  Forall2 (fun e t => stamp e = Some t) entries stamps -> t ∈ stamps ->
  exists i entry, py_getitem_int series i = Ok entry /\ stamp entry = Some t.
Proof.
  intros Hi HF Ht. apply list_elem_of_lookup in Ht as [i Ht].
  destruct (Forall2_lookup_r _ _ _ _ _ HF Ht) as (entry & He & Hs).
  exists i, entry. split; [|exact Hs].
  destruct series; simpl in *; try discriminate.
  - injection Hi as <-. unfold string_chars in He.
    rewrite list_lookup_fmap in He.
    destruct (list_ascii_of_string s !! i); [|discriminate].
    injection He as <-. discriminate.
  - injection Hi as <-. rewrite He. reflexivity.
  - injection Hi as <-. rewrite list_lookup_fmap in He.
    destruct (fields !! i); [|discriminate].
    injection He as <-. discriminate.
Qed.


(** With distinct parameter names, every instant of the pool is the
    instant of a stored record, the dataset holds exactly the selected
    series, and the trace holds exactly the notices of the skipped
    parameters. *)
Lemma fetch_loop_inv l ds0 pool0 tr ds pool :
  for_each l step (ds0, pool0) = (tr, Ok (ds, pool)) ->
  NoDup (map fst l) ->
  (forall p, p ∈ map fst l -> ds0 !! p = None) ->
  (forall t, t ∈ pool0 -> exists p i, observation to_datetime ds0 p i t) ->
  (forall t, t ∈ pool -> exists p i, observation to_datetime ds p i t) /\
  (forall p, p ∉ map fst l -> ds !! p = ds0 !! p) /\
  (forall p url, (p, url) ∈ l ->
     exists data, get_json url = Some data /\ ds !! p = selected_series data) /\
  (forall ev, ev ∈ tr ->
     exists p url data, (p, url) ∈ l /\ get_json url = Some data /\
       selected_series data = None /\ ev = Print (UnexpectedStructure p data)) /\
  (forall p url data, (p, url) ∈ l -> get_json url = Some data ->
     selected_series data = None -> Print (UnexpectedStructure p data) ∈ tr).
Proof.
  revert ds0 pool0 tr. induction l as [|[param url] l IH]; intros ds0 pool0 tr.
  - intros [= <- <- <-] _ _ Hp. repeat split; auto.
    + intros p u H. inversion H.
    + intros ev H. inversion H.
    + intros p u d H. inversion H.
  - intros H Hnd Hfresh Hp. simpl in Hnd. apply NoDup_cons in Hnd as [Hnotin Hnd].
    apply for_each_cons_inv in H as (t1 & [ds1 pool1] & t2 & Hs & Hl & ->).
    apply fetch_param_inv in Hs as (data & Hg & Hs).
    assert (Hds1 : forall p, p <> param -> ds1 !! p = ds0 !! p).
    { intros p Hne. destruct Hs as [(s & _ & _ & _ & _ & -> & _)|(_ & -> & _)];
        [apply lookup_insert_ne; congruence|reflexivity]. }
    assert (Hparam : ds1 !! param = selected_series data).
    { destruct Hs as [(s & _ & _ & -> & _ & -> & _)|(-> & -> & _)];
        [apply lookup_insert_eq|]. apply Hfresh. left. }
    assert (Hfresh1 : forall p, p ∈ map fst l -> ds1 !! p = None).
    { intros p Hin. rewrite Hds1; [apply Hfresh; right; exact Hin|].
      intros ->. contradiction. }
    assert (Hp1 : forall t, t ∈ pool1 -> exists p i, observation to_datetime ds1 p i t).
    { intros t Ht.
      destruct Hs as [(s & entries & stamps & _ & _ & -> & Hit & -> & HF)|(_ & -> & -> & _)];
        [|auto].
      apply elem_of_app in Ht as [Ht|Ht].
      - destruct (Hp t Ht) as (p & i & series & entry & Hds & Hrest).
        exists p, i, series, entry. split; [|exact Hrest].
        rewrite lookup_insert_ne; [exact Hds|]. intros <-.
        rewrite Hfresh in Hds by left. discriminate.
      - destruct (iterated_entry_observed _ _ _ _ Hit HF Ht) as (i & entry & Hget & Hst).
        exists param, i, s, entry. rewrite lookup_insert_eq. auto. }
    destruct (IH _ _ _ Hl Hnd Hfresh1 Hp1) as (I1 & I2 & I3 & I4 & I5).
    split; [exact I1|]. split; [|split; [|split]].
    + intros p Hp'. rewrite I2 by (intros ?; apply Hp'; right; assumption).
      apply Hds1. intros ->. apply Hp'. left.
    + intros p u Hin. apply elem_of_cons in Hin as [[= -> ->]|Hin]; [|auto].
      exists data. split; [exact Hg|]. rewrite I2 by exact Hnotin. exact Hparam.
    + intros ev Hev. apply elem_of_app in Hev as [Hev|Hev].
      * destruct Hs as [(_ & _ & _ & _ & -> & _)|(Hn & _ & _ & ->)]; [inversion Hev|].
        apply list_elem_of_singleton in Hev as ->.
        exists param, url, data. split; [left|auto].
      * destruct (I4 ev Hev) as (p & u & d & Hin & Hrest).
        exists p, u, d. split; [right; exact Hin|exact Hrest].
    + intros p u d Hin Hgu Hn. apply elem_of_app.
      apply elem_of_cons in Hin as [[= -> ->]|Hin]; [|right; eauto].
      left. rewrite Hg in Hgu. injection Hgu as <-.
      destruct Hs as [(s & _ & _ & Hsome & _)|(_ & _ & _ & ->)]; [congruence|left].
Qed.

Lemma urls_distinct : NoDup (map fst urls).
Proof. apply (bool_decide_unpack _). vm_compute. exact I. Qed.




(** ** Claims on the fetch loop and the time range *)

(** C2: a parameter whose response object has neither a [data] nor a
    [predictions] key is logged and skipped, the round leaving dataset
    and pool unchanged so that the loop goes on; after the loop the
    dataset has no entry for it and every instant of the pool belongs
    to a stored series.  Otherwise the stored series is the [data]
    array when that key is present, else the [predictions] array. *)
Theorem fetch_skips_unexpected_shape tr (ds : gmap string json) pool
    (param url : string) kv :
  fetch get_json to_datetime = (tr, Ok (ds, pool)) ->
  (param, url) ∈ urls ->
  get_json url = Some (JObj kv) ->
  ds !! param = (match assoc "data" kv with
                 | Some v => Some v
                 | None => assoc "predictions" kv
                 end) /\
  (assoc "data" kv = None -> assoc "predictions" kv = None ->
     ds !! param = None /\
     Print (UnexpectedStructure param (JObj kv)) ∈ tr /\
     (forall st, step st (param, url)
                 = ([Print (UnexpectedStructure param (JObj kv))], Ok st)) /\
     (forall t, t ∈ pool ->
        exists p i, p <> param /\ observation to_datetime ds p i t)).
Proof.
  intros Hf Hin Hg. unfold fetch in Hf.
  destruct (fetch_loop_inv _ _ _ _ _ _ Hf urls_distinct) as (I1 & _ & I3 & _ & I5).
  { intros p _. apply lookup_empty. }
  { intros t Ht. inversion Ht. }
  destruct (I3 _ _ Hin) as (data & Hg' & Hds). rewrite Hg in Hg'. injection Hg' as <-.
  split; [exact Hds|]. intros Hd Hp. simpl in Hds. rewrite Hd, Hp in Hds.
  split; [exact Hds|]. split; [|split].
  - apply (I5 _ _ _ Hin Hg). simpl. rewrite Hd, Hp. reflexivity.
  - intros st. apply fetch_param_skip; assumption.
  - intros t Ht. destruct (I1 t Ht) as (p & i & Hobs). exists p, i. split; [|exact Hobs].
    intros ->. destruct Hobs as (series & entry & Hl & _). congruence.
Qed.



End FetchProperties.

(** The wind request answered by the API's error body: the skip is
    logged and the dataset has no wind series. *)
Lemma fetch_skips_unexpected_shape_witness :
  fst (final_state (∅, []) wind_error_fetch) !! "wind"%string = None /\
  Print (UnexpectedStructure "wind" error_body) ∈ fst wind_error_fetch.
Proof.
  refine (let H := proj2 (fetch_skips_unexpected_shape
                     (respond (bodies_with_error "wind")) api_to_datetime
                     (fst wind_error_fetch)
                     (fst (final_state (∅, []) wind_error_fetch))
                     (snd (final_state (∅, []) wind_error_fetch))
                     "wind"%string wind_url
                     [("error", JObj [("message", JStr "No data was found.")])]%string
                     _ _ _) eq_refl eq_refl
          in conj (proj1 H) (proj1 (proj2 H))).
  - vm_compute; exact eq_refl.
  - left.
  - vm_compute; exact eq_refl.
Defined.



(** ** Rounding to the nearest double *)

Lemma pow2_pos (k : Z) : 0 <= k -> 0 < 2 ^ k.
Proof. intros. apply Z.pow_pos_nonneg; lia. Qed.

(** [ge_pow2 n d k] only depends on the difference of the two exponents
    the powers of two are split into. *)
Lemma ge_pow2_shift (n d a b : Z) :
  0 <= a -> 0 <= b -> ge_pow2 n d (a - b) = true <-> d * 2 ^ a <= n * 2 ^ b.
Proof.
  intros Ha Hb. unfold ge_pow2. rewrite Z.leb_le.
  destruct (Z.le_gt_cases b a) as [H|H].
  - rewrite (Z.max_r 0 (a - b)), (Z.max_l 0 (- (a - b))) by lia.
    replace a with ((a - b) + b) at 2 by lia. rewrite Z.pow_add_r by lia.
    pose proof (pow2_pos b Hb). pose proof (pow2_pos (a - b) ltac:(lia)).
    change (2 ^ 0) with 1. split; intros; nia.
  - rewrite (Z.max_l 0 (a - b)), (Z.max_r 0 (- (a - b))) by lia.
    replace b with (- (a - b) + a) at 2 by lia. rewrite Z.pow_add_r by lia.
    pose proof (pow2_pos a Ha). pose proof (pow2_pos (- (a - b)) ltac:(lia)).
    change (2 ^ 0) with 1. split; intros; nia.
Qed.

Lemma ge_pow2_mono_k (n d j k : Z) :
  0 < d -> j <= k -> ge_pow2 n d k = true -> ge_pow2 n d j = true.
Proof.
  intros Hd Hjk H.
  set (A := Z.abs j + Z.abs k).
  replace k with ((A + k) - A) in H by lia. replace j with ((A + j) - A) by lia.
  apply ge_pow2_shift in H; [|lia|lia]. apply ge_pow2_shift; [lia|lia|].
  assert (2 ^ (A + j) <= 2 ^ (A + k)) by (apply Z.pow_le_mono_r; lia).
  pose proof (pow2_pos (A + j) ltac:(lia)). nia.
Qed.

Lemma ge_pow2_mono_n (n1 n2 d k : Z) :
  n1 <= n2 -> ge_pow2 n1 d k = true -> ge_pow2 n2 d k = true.
Proof.
  unfold ge_pow2. rewrite !Z.leb_le. intros Hn H.
  pose proof (pow2_pos (Z.max 0 (- k)) ltac:(lia)). nia.
Qed.

(** The magnitude brackets the quotient. *)
Lemma ratio_mag_spec (n d : Z) :
  0 < n -> 0 < d ->
  ge_pow2 n d (ratio_mag n d - 1) = true /\ ge_pow2 n d (ratio_mag n d) = false.
Proof.
  intros Hn Hd.
  destruct (Z.log2_spec n Hn) as [Hn1 Hn2]. destruct (Z.log2_spec d Hd) as [Hd1 Hd2].
  pose proof (Z.log2_nonneg n). pose proof (Z.log2_nonneg d).
  rewrite <- Z.add_1_r in Hn2, Hd2.
  set (ln := Z.log2 n) in *. set (ld := Z.log2 d) in *.
  assert (Hup : ge_pow2 n d (ln - ld + 1) = false).
  { apply not_true_is_false. replace (ln - ld + 1) with ((ln + 1) - ld) by lia.
    rewrite ge_pow2_shift by lia.
    pose proof (pow2_pos ld ltac:(lia)). nia. }
  assert (Hlo : ge_pow2 n d (ln - ld - 1) = true).
  { replace (ln - ld - 1) with (ln - (ld + 1)) by lia. apply ge_pow2_shift; [lia|lia|].
    pose proof (pow2_pos ln ltac:(lia)). nia. }
  unfold ratio_mag. fold ln ld. destruct (ge_pow2 n d (ln - ld)) eqn:E.
  - replace (ln - ld + 1 - 1) with (ln - ld) by lia. auto.
  - auto.
Qed.

Lemma ratio_mag_mono (n1 n2 d : Z) :
  0 < n1 -> n1 <= n2 -> 0 < d -> ratio_mag n1 d <= ratio_mag n2 d.
Proof.
  intros H1 H12 Hd.
  destruct (ratio_mag_spec n1 d H1 Hd) as [Hlo _].
  destruct (ratio_mag_spec n2 d ltac:(lia) Hd) as [_ Hup].
  destruct (Z.le_gt_cases (ratio_mag n1 d) (ratio_mag n2 d)) as [|Hgt]; [assumption|].
  exfalso. apply (ge_pow2_mono_n _ _ _ _ H12) in Hlo.
  apply (ge_pow2_mono_k _ _ (ratio_mag n2 d)) in Hlo; [congruence|assumption|lia].
Qed.

(** Rounding to the nearest integer stays between the two neighbours,
    does not cross an integer, and is monotone. *)
Lemma round_half_even_bounds (num den : Z) :
  0 < den -> num / den <= round_half_even num den <= num / den + 1.
Proof.
  intros Hd. unfold round_half_even.
  destruct (2 * (num mod den) ?= den); [destruct (Z.even (num / den))| |]; lia.
Qed.

Lemma round_half_even_ge (num den b : Z) :
  0 < den -> den * b <= num -> b <= round_half_even num den.
Proof.
  intros Hd H. pose proof (round_half_even_bounds num den Hd).
  assert (b <= num / den) by (apply Z.div_le_lower_bound; lia). lia.
Qed.

Lemma round_half_even_le (num den b : Z) :
  0 < den -> num < den * b -> round_half_even num den <= b.
Proof.
  intros Hd H. pose proof (round_half_even_bounds num den Hd).
  assert (num / den < b) by (apply Z.div_lt_upper_bound; lia). lia.
Qed.

Lemma round_half_even_mono (n1 n2 den : Z) :
  0 < den -> n1 <= n2 -> round_half_even n1 den <= round_half_even n2 den.
Proof.
  intros Hd H12.
  pose proof (round_half_even_bounds n1 den Hd) as B1.
  pose proof (round_half_even_bounds n2 den Hd) as B2.
  assert (Hq : n1 / den <= n2 / den) by (apply Z.div_le_mono; lia).
  destruct (Z.eq_dec (n1 / den) (n2 / den)) as [Heq|Hne]; [|lia].
  assert (Hr : n1 mod den <= n2 mod den).
  { pose proof (Z.div_mod n1 den ltac:(lia)). pose proof (Z.div_mod n2 den ltac:(lia)). nia. }
  unfold round_half_even. rewrite <- Heq.
  destruct (Z.compare_spec (2 * (n1 mod den)) den);
    destruct (Z.compare_spec (2 * (n2 mod den)) den);
    destruct (Z.even (n1 / den)); lia.
Qed.

(** The scaled quotient: [num / den = (n/d) / 2^e]. *)
Lemma scaled_ge (n d e k : Z) :
  0 <= k ->
  ge_pow2 n d (e + k) = true <->
  (d * 2 ^ Z.max 0 e) * 2 ^ k <= n * 2 ^ Z.max 0 (- e).
Proof.
  intros Hk. replace (e + k) with ((Z.max 0 e + k) - Z.max 0 (- e)) by lia.
  rewrite ge_pow2_shift by lia. rewrite Z.pow_add_r by lia. lia.
Qed.

Lemma binary64_fexp (x : Z) : fexp prec emax x = Z.max (x - 53) (-1074).
Proof. reflexivity. Qed.

(** The mantissa before renormalisation: at most [2^53], at least [2^52]
    in the normal range. *)
Lemma mantissa_le (n d : Z) :
  0 < n -> 0 < d ->
  let e := fexp prec emax (ratio_mag n d) in
  round_half_even (n * 2 ^ Z.max 0 (- e)) (d * 2 ^ Z.max 0 e) <= 2 ^ 53.
Proof.
  intros Hn Hd e. destruct (ratio_mag_spec n d Hn Hd) as [_ Hup].
  pose proof (pow2_pos (Z.max 0 e) ltac:(lia)).
  apply round_half_even_le; [nia|].
  assert (H53 : ge_pow2 n d (e + 53) = false).
  { apply not_true_is_false. intros Hge. apply (ge_pow2_mono_k _ _ (ratio_mag n d)) in Hge;
      [congruence|assumption|]. subst e. rewrite binary64_fexp. lia. }
  apply not_true_iff_false in H53. rewrite scaled_ge in H53 by lia. lia.
Qed.

Lemma mantissa_ge_normal (n d : Z) :
  0 < n -> 0 < d ->
  let e := fexp prec emax (ratio_mag n d) in
  -1074 < e ->
  2 ^ 52 <= round_half_even (n * 2 ^ Z.max 0 (- e)) (d * 2 ^ Z.max 0 e).
Proof.
  intros Hn Hd e He. destruct (ratio_mag_spec n d Hn Hd) as [Hlo _].
  pose proof (pow2_pos (Z.max 0 e) ltac:(lia)).
  apply round_half_even_ge; [nia|].
  assert (H52 : ge_pow2 n d (e + 52) = true).
  { replace (e + 52) with (ratio_mag n d - 1); [assumption|].
    subst e. rewrite binary64_fexp in *. lia. }
  rewrite scaled_ge in H52 by lia. lia.
Qed.

Lemma mantissa_nonneg (n d : Z) (e : Z) :
  0 < n -> 0 < d ->
  0 <= round_half_even (n * 2 ^ Z.max 0 (- e)) (d * 2 ^ Z.max 0 e).
Proof.
  intros Hn Hd. pose proof (pow2_pos (Z.max 0 e) ltac:(lia)).
  pose proof (pow2_pos (Z.max 0 (- e)) ltac:(lia)).
  apply round_half_even_ge; nia.
Qed.

Lemma SFleb_finite_pos (m1 m2 : positive) (e1 e2 : Z) :
  e1 < e2 \/ (e1 = e2 /\ (m1 <= m2)%positive) ->
  SFleb (S754_finite false m1 e1) (S754_finite false m2 e2) = true.
Proof.
  unfold SFleb, SFcompare. intros [H|[-> H]].
  - rewrite (proj2 (Z.compare_lt_iff e1 e2) H). reflexivity.
  - rewrite Z.compare_refl. change (Pos.compare_cont Eq m1 m2) with (m1 ?= m2)%positive.
    destruct (Pos.compare_spec m1 m2); try reflexivity. lia.
Qed.

(** What [round_ratio] returns, by the rounded mantissa. *)
Lemma round_ratio_cases (neg : bool) (n d : Z) :
  0 < n -> 0 < d ->
  let e := fexp prec emax (ratio_mag n d) in
  let m := round_half_even (n * 2 ^ Z.max 0 (- e)) (d * 2 ^ Z.max 0 e) in
  round_ratio neg n d =
    if m =? 0 then S754_zero neg
    else if m =? 2 ^ 53 then
      if e + 1 <=? 971 then S754_finite neg (Z.to_pos (2 ^ 52)) (e + 1)
      else S754_infinity neg
    else if e <=? 971 then S754_finite neg (Z.to_pos m) e else S754_infinity neg.
Proof.
  intros Hn Hd e m. pose proof (mantissa_nonneg n d e Hn Hd) as Hm. fold m in Hm.
  unfold round_ratio. rewrite (proj2 (Z.eqb_neq n 0)) by lia. fold e. fold m.
  change (2 ^ prec) with (2 ^ 53). change (emax - prec) with 971.
  change (2 ^ (prec - 1)) with (2 ^ 52).
  destruct (Z.eqb_spec m (2 ^ 53)) as [E|E].
  - rewrite E. reflexivity.
  - destruct (Z.eqb_spec m 0) as [E0|E0]; [rewrite E0; reflexivity|].
    destruct m; try lia. reflexivity.
Qed.

Lemma round_ratio_zero (neg : bool) (d : Z) : round_ratio neg 0 d = S754_zero neg.
Proof. reflexivity. Qed.

Lemma SFleb_zero_l (neg : bool) (n d : Z) :
  0 <= n -> 0 < d -> SFleb (S754_zero neg) (round_ratio false n d) = true.
Proof.
  intros Hn Hd. destruct (Z.eq_dec n 0) as [->|Hne]; [reflexivity|].
  rewrite round_ratio_cases by lia. cbv zeta.
  repeat match goal with |- context [if ?b then _ else _] => destruct b end; reflexivity.
Qed.

(** Rounding is monotone on non-negative quotients of one denominator. *)
Lemma round_ratio_mono (n1 n2 d : Z) :
  0 <= n1 -> n1 <= n2 -> 0 < d ->
  SFleb (round_ratio false n1 d) (round_ratio false n2 d) = true.
Proof.
  intros H1 H12 Hd. destruct (Z.eq_dec n1 0) as [->|Hne].
  { rewrite round_ratio_zero. apply SFleb_zero_l; lia. }
  assert (Hn1 : 0 < n1) by lia. assert (Hn2 : 0 < n2) by lia.
  rewrite !round_ratio_cases by assumption. cbv zeta.
  pose proof (ratio_mag_mono n1 n2 d Hn1 H12 Hd) as Hmag.
  pose proof (mantissa_le n1 d Hn1 Hd) as Hle1. pose proof (mantissa_le n2 d Hn2 Hd) as Hle2.
  pose proof (mantissa_ge_normal n2 d Hn2 Hd) as Hge2.
  pose proof (mantissa_nonneg n1 d (fexp prec emax (ratio_mag n1 d)) Hn1 Hd) as Hp1.
  pose proof (mantissa_nonneg n2 d (fexp prec emax (ratio_mag n2 d)) Hn2 Hd) as Hp2.
  cbv zeta in Hle1, Hle2, Hge2.
  assert (He : fexp prec emax (ratio_mag n1 d) <= fexp prec emax (ratio_mag n2 d))
    by (rewrite !binary64_fexp; lia).
  assert (Hsame : fexp prec emax (ratio_mag n1 d) = fexp prec emax (ratio_mag n2 d) ->
                  round_half_even (n1 * 2 ^ Z.max 0 (- fexp prec emax (ratio_mag n1 d)))
                                  (d * 2 ^ Z.max 0 (fexp prec emax (ratio_mag n1 d)))
                  <= round_half_even (n2 * 2 ^ Z.max 0 (- fexp prec emax (ratio_mag n2 d)))
                                     (d * 2 ^ Z.max 0 (fexp prec emax (ratio_mag n2 d)))).
  { intros <-. set (e := fexp prec emax (ratio_mag n1 d)).
    pose proof (pow2_pos (Z.max 0 e) ltac:(lia)). pose proof (pow2_pos (Z.max 0 (- e)) ltac:(lia)).
    apply round_half_even_mono; nia. }
  assert (Hemin : -1074 <= fexp prec emax (ratio_mag n1 d)) by (rewrite binary64_fexp; lia).
  set (e1 := fexp prec emax (ratio_mag n1 d)) in *.
  set (e2 := fexp prec emax (ratio_mag n2 d)) in *.
  set (m1 := round_half_even (n1 * _) _) in *. set (m2 := round_half_even (n2 * _) _) in *.
  assert (H52 : 0 < 2 ^ 52 < 2 ^ 53) by (split; reflexivity).
  destruct (Z.eqb_spec m1 0); destruct (Z.eqb_spec m2 0);
    destruct (Z.eqb_spec m1 (2 ^ 53)); destruct (Z.eqb_spec m2 (2 ^ 53));
    destruct (Z.leb_spec (e1 + 1) 971); destruct (Z.leb_spec (e2 + 1) 971);
    destruct (Z.leb_spec e1 971); destruct (Z.leb_spec e2 971);
    try reflexivity; try lia;
    try (apply SFleb_finite_pos; lia).

Qed.

Lemma round_ratio_opp (n d : Z) :
  round_ratio true n d = SFopp (round_ratio false n d).
Proof.
  unfold round_ratio. destruct (n =? 0); [reflexivity|].
  destruct (if _ =? _ then _ else _) as [m' e']. destruct m'; try reflexivity.
  destruct (e' <=? emax - prec); reflexivity.
Qed.

Lemma round_ratio_sign (neg : bool) (n d : Z) :
  match round_ratio neg n d with
  | S754_zero s | S754_infinity s | S754_finite s _ _ => s = neg
  | S754_nan => False
  end.
Proof.
  unfold round_ratio. destruct (n =? 0); [reflexivity|].
  destruct (if _ =? _ then _ else _) as [m' e']. destruct m'; try reflexivity.
  destruct (e' <=? emax - prec); reflexivity.
Qed.

Lemma SFleb_opp (a b : spec_float) :
  SFleb (SFopp a) (SFopp b) = SFleb b a.
Proof.
  unfold SFleb.
  destruct a as [[|]|[|]| |[|] m1 e1], b as [[|]|[|]| |[|] m2 e2]; try reflexivity; simpl;
    rewrite (Z.compare_antisym e1 e2); destruct (e1 ?= e2) eqn:E; simpl; try reflexivity;
    change (Pos.compare_cont Eq m1 m2) with (m1 ?= m2)%positive;
    change (Pos.compare_cont Eq m2 m1) with (m2 ?= m1)%positive;
    rewrite (Pos.compare_antisym m1 m2); destruct (m1 ?= m2)%positive; reflexivity.
Qed.

Lemma SFleb_neg_pos (n1 n2 d1 d2 : Z) :
  SFleb (round_ratio true n1 d1) (round_ratio false n2 d2) = true.
Proof.
  pose proof (round_ratio_sign true n1 d1) as H1.
  pose proof (round_ratio_sign false n2 d2) as H2.
  destruct (round_ratio true n1 d1) as [s1|s1| |s1 ? ?]; try contradiction;
    destruct (round_ratio false n2 d2) as [s2|s2| |s2 ? ?]; try contradiction;
    subst; reflexivity.
Qed.

(** [a / b] is monotone in [a] for a positive divisor. *)
Lemma true_divide_mono (a1 a2 b : Z) (x1 x2 : spec_float) :
  0 < b -> a1 <= a2 ->
  true_divide a1 b = Ok x1 -> true_divide a2 b = Ok x2 ->
  SFleb x1 x2 = true.
Proof.
  intros Hb H12. unfold true_divide. rewrite (proj2 (Z.eqb_neq b 0)) by lia.
  rewrite (proj2 (Z.ltb_ge b 0)) by lia. rewrite !xorb_false_r.
  rewrite (Z.abs_eq b) by lia.
  destruct (is_finite_float (round_ratio (a1 <? 0) (Z.abs a1) b)); [|discriminate].
  destruct (is_finite_float (round_ratio (a2 <? 0) (Z.abs a2) b)); [|discriminate].
  intros [= <-] [= <-].
  destruct (Z.ltb_spec a1 0) as [N1|N1]; destruct (Z.ltb_spec a2 0) as [N2|N2].
  - rewrite !round_ratio_opp, SFleb_opp. apply round_ratio_mono; lia.
  - apply SFleb_neg_pos.
  - lia.
  - rewrite !Z.abs_eq by lia. apply round_ratio_mono; lia.
Qed.

(** The rounding agrees with the standard library's division of doubles
    where the operands are doubles themselves. *)
Example true_divide_sample :
  true_divide 1728345600000000000 (10 ^ 6)
  = Ok (SFdiv prec emax (binary_normalize prec emax 1728345600000000000 0 false)
                        (binary_normalize prec emax 1000000 0 false)).
Proof. vm_compute. reflexivity. Qed.

Example true_divide_third :
  true_divide (-1) 3
  = Ok (SFdiv prec emax (binary_normalize prec emax (-1) 0 false)
                        (binary_normalize prec emax 3 0 false)).
Proof. vm_compute. reflexivity. Qed.

Example sleep_delay_value : sleep_delay = S754_finite false 8646911284551352 (-58).
Proof. vm_compute. reflexivity. Qed.

(** A quotient below [2^1023] is not rounded to an infinity. *)
Lemma round_ratio_finite (neg : bool) (n d k : Z) :
  0 <= n -> 0 < d -> 0 <= k <= 1023 -> n < d * 2 ^ k ->
  is_finite_float (round_ratio neg n d) = true.
Proof.
  intros Hn Hd Hk Hlt. destruct (Z.eq_dec n 0) as [->|Hne]; [reflexivity|].
  assert (Hmag : ratio_mag n d <= k).
  { destruct (ratio_mag_spec n d ltac:(lia) Hd) as [Hlo _].
    destruct (Z.le_gt_cases (ratio_mag n d) k) as [|Hgt]; [assumption|]. exfalso.
    apply (ge_pow2_mono_k _ _ k) in Hlo; [|assumption|lia].
    replace k with (k - 0) in Hlo by lia. apply ge_pow2_shift in Hlo; lia. }
  rewrite round_ratio_cases by lia. cbv zeta.
  assert (He : fexp prec emax (ratio_mag n d) <= 970) by (rewrite binary64_fexp; lia).
  repeat match goal with |- context [if ?b then _ else _] => destruct b eqn:? end;
    try reflexivity; exfalso; lia.
Qed.

(** The conversion to milliseconds of a 64-bit instant never fails. *)
Lemma true_divide_int64 (t : Z) :
  - 2 ^ 63 <= t < 2 ^ 63 -> exists x, true_divide t (10 ^ 6) = Ok x.
Proof.
  intros Ht. unfold true_divide. change (10 ^ 6 =? 0) with false. cbv iota.
  rewrite (round_ratio_finite _ _ _ 64); [eauto|lia|reflexivity|lia|].
  change (Z.abs (10 ^ 6)) with 1000000. change (2 ^ 63) with 9223372036854775808 in Ht.
  change (2 ^ 64) with 18446744073709551616. lia.
Qed.

(** ** The playback loop *)


Section PlaybackProperties.

Variable to_datetime : json -> option Z.

Local Abbreviation play := (play_param to_datetime).
Local Abbreviation six := (map fst urls).

Lemma known_param_field (param : string) :
  param ∈ six ->
  (String.eqb param "wind" = true /\ value_field param = "s"%string) \/
  (String.eqb param "wind" = false /\ bool_decide (param ∈ v_params) = true /\
   value_field param = "v"%string).
Proof.
  intros H. simpl in H.
  repeat (apply elem_of_cons in H as [->|H]); try (inversion H; fail);
    [left; split; reflexivity|right; repeat split; reflexivity..].
Qed.











(** *** Exceptions of the playback loop *)

Lemma py_getitem_str_err d k e : py_getitem_str d k = Err e -> e <> IndexError.
Proof.
  destruct d; simpl; try (intros [= <-]; discriminate).
  destruct (assoc k fields); [discriminate|]. intros [= <-]. discriminate.
Qed.

Lemma true_divide_err a b e : true_divide a b = Err e -> e <> IndexError.
Proof.
  unfold true_divide. destruct (b =? 0); [intros [= <-]; discriminate|].
  destruct (is_finite_float _); [discriminate|]. intros [= <-]. discriminate.
Qed.

Lemma py_float_err v e : py_float v = Err e -> e <> IndexError.
Proof.
  assert (Hint : forall z, float_of_int z = Err e -> e <> IndexError).
  { intros z. unfold float_of_int. destruct (is_finite_float _); [discriminate|].
    intros [= <-]. discriminate. }
  destruct v; simpl; try (intros [= <-]; discriminate); try apply Hint.
  unfold float_of_string. destruct (parse_sign _) as [neg body].
  destruct (is_word "inf" body || is_word "infinity" body); [discriminate|].
  destruct (is_word "nan" body); [discriminate|].
  destruct (parse_number body) as [[[m frac] rest]|]; [|intros [= <-]; discriminate].
  destruct (parse_exponent rest) as [[ex [|]]|]; try discriminate;
    intros [= <-]; discriminate.
Qed.

Lemma string_get_in_bounds s i : (i < String.length s)%nat -> is_Some (String.get i s).
Proof.
  revert i. induction s as [|a s IH]; intros i; simpl; [lia|].
  destruct i as [|i]; [eauto|]. intros H. apply IH. lia.
Qed.

(** A position below the length is not out of bounds. *)
Lemma covered_in_bounds n series i :
  covers n series = true -> (i < n)%nat -> py_getitem_int series i <> Err IndexError.
Proof.
  unfold covers. destruct series; simpl; try discriminate; intros H Hi.
  - apply Nat.leb_le in H. unfold string_nth.
    destruct (string_get_in_bounds s i ltac:(lia)) as [c ->]. discriminate.
  - apply Nat.leb_le in H.
    destruct (lookup_lt_is_Some_2 items i ltac:(lia)) as [r ->]. discriminate.
Qed.

Lemma play_param_no_index_error ds i vs param tr e :
  (forall series, ds !! param = Some series -> py_getitem_int series i <> Err IndexError) ->
  play ds i vs param = (tr, Err e) -> e <> IndexError.
Proof.
  intros Hb H. unfold play_param, to_ms in H.
  apply bind_err_inv in H as [[t H]|(t0 & series & t0' & Hds & H)];
    [apply from_option_err in H as ->; discriminate|]. apply from_option_ok in Hds.
  apply bind_err_inv in H as [[t H]|(t1 & entry & t1' & _ & H)];
    [apply lift_inv in H; intros ->; exact (Hb _ Hds H)|].
  apply bind_err_inv in H as [[t H]|(t2 & tj & t2' & _ & H)];
    [apply lift_inv in H; exact (py_getitem_str_err _ _ _ H)|].
  apply bind_err_inv in H as [[t H]|(t3 & stamp & t3' & _ & H)];
    [apply from_option_err in H as ->; discriminate|].
  apply bind_err_inv in H as [[t H]|(t4 & x & t4' & _ & H)];
    [apply lift_inv in H; exact (true_divide_err _ _ _ H)|].
  apply bind_err_inv in H as [[t H]|(t5 & value_str & t5' & _ & H)].
  { destruct (String.eqb param "wind"); [|destruct (bool_decide (param ∈ v_params))].
    - apply bind_err_inv in H as [[t' H]|(? & ? & ? & _ & H)]; [|discriminate].
      apply lift_inv in H. exact (py_getitem_str_err _ _ _ H).
    - apply bind_err_inv in H as [[t' H]|(? & ? & ? & _ & H)]; [|discriminate].
      apply lift_inv in H. exact (py_getitem_str_err _ _ _ H).
    - discriminate. }
  apply bind_err_inv in H as [[t H]|(t6 & value & t6' & _ & H)];
    [apply from_option_err in H as ->; discriminate|].
  apply bind_err_inv in H as [[t H]|(t7 & u & t7' & _ & H)]; [|discriminate].
  destruct (py_truthy value && py_ne_empty value); [|discriminate].
  apply bind_err_inv in H as [[t' H]|(? & ? & ? & _ & H)]; [|discriminate].
  apply lift_inv in H. exact (py_float_err _ _ H).
Qed.

(** C9: when every stored series is at least as long as the wind series,
    the playback loop never dies from [IndexError], and no position the
    loop visits is out of the bounds of a stored series. *)
Theorem playback_in_bounds (ds : gmap string json) (params : list string) :
  (forall wind n, ds !! "wind"%string = Some wind -> py_len wind = Ok n ->
                  map_Forall (fun _ series => covers n series = true) ds) ->
  (forall tr e, playback to_datetime ds params = (tr, Err e) -> e <> IndexError) /\
  (forall wind n i param series,
      ds !! "wind"%string = Some wind -> py_len wind = Ok n -> i ∈ seq 0 n ->
      ds !! param = Some series -> py_getitem_int series i <> Err IndexError).
Proof.
  intros Hpre.
  assert (Hb : forall wind n i param series,
             ds !! "wind"%string = Some wind -> py_len wind = Ok n -> i ∈ seq 0 n ->
             ds !! param = Some series -> py_getitem_int series i <> Err IndexError).
  { intros wind n i param series Hw Hn Hi Hs. apply (covered_in_bounds n).
    - exact (Hpre wind n Hw Hn param series Hs).
    - apply elem_of_seq in Hi. lia. }
  split; [|exact Hb]. intros tr e. unfold playback.
  destruct (ds !! "wind"%string) as [wind|] eqn:Hw; cbn [from_option ret raise bind app];
    [|intros [= _ <-]; discriminate].
  destruct (py_len wind) as [n|e1] eqn:Hn; cbn [lift bind app].
  - destruct (for_each (seq 0 n) _ None) as [t r] eqn:Hrun. intros [= <- ->].
    apply for_each_err in Hrun as (i & vs & tr' & Hi & Hpos).
    unfold play_position in Hpos.
    destruct (for_each params (play ds i) vs) as [t1 [vs1|e1]] eqn:Hin;
      cbn [bind emit ret app] in Hpos; [discriminate|].
    injection Hpos as _ <-.
    apply for_each_err in Hin as (param & vs' & tr'' & _ & Hplay).
    apply (play_param_no_index_error _ _ _ _ _ _ (fun series Hs => Hb wind n i param series eq_refl Hn Hi Hs) Hplay).
  - intros [= _ <-]. destruct wind; simpl in Hn; congruence.
Qed.

(** *** The trace of one parameter *)






End PlaybackProperties.


Example infinite_value : float_of_string "inf" = Ok (S754_infinity false).
Proof. reflexivity. Qed.

Example nan_value : float_of_string "nan" = Ok S754_nan.
Proof. reflexivity. Qed.

Example overflowing_value : float_of_string "1e999" = Ok (S754_infinity false).
Proof. vm_compute. reflexivity. Qed.

Example text_value_stops_playback :
  snd (script (respond bodies_with_text_value) api_to_datetime) = Err ValueError.
Proof. vm_compute. reflexivity. Qed.

(** ** Points and the time axis *)

Section AxisInterval.

Variable get_json : string -> option json.
Variable to_datetime : json -> option Z.

Ltac emits_step :=
  match goal with
  | |- emits _ (bind _ _) => apply emits_bind; [|intros ? ? ?]
  | |- emits _ (ret _) => apply emits_ret
  | |- emits _ (lift _) => apply emits_lift
  | |- emits _ (raise _) => apply emits_raise
  | |- emits _ (from_option _ _) => apply emits_from_option
  | |- emits _ (for_each _ _ _) => apply emits_for_each; intros ? ? ?
  | |- emits _ (if ?b then _ else _) => destruct b eqn:?
  end.

Lemma collect_emits_nothing P series pool :
  emits P (collect_timestamps to_datetime series pool).
Proof. unfold collect_timestamps. repeat emits_step. Qed.

Lemma fetch_emits_prints :
  emits (fun ev => exists m, ev = Print m) (fetch get_json to_datetime).
Proof.
  unfold fetch. apply emits_for_each. intros [ds pool] [param url] _.
  unfold fetch_param. repeat (emits_step || apply collect_emits_nothing).
  apply emits_emit. eauto.
Qed.

(** Every point of the playback is the record of a stored series at its
    instant in milliseconds; the playback does not touch the time axis. *)
Lemma play_param_emits ds i vs param :
  emits (fun ev =>
           (forall lo hi, ev <> Chart (XSetInterval lo hi)) /\
           (forall p x y, ev = Chart (SeriesAdd p x y) ->
              exists t, observation to_datetime ds p i t /\ true_divide t (10 ^ 6) = Ok x))
        (play_param to_datetime ds i vs param).
Proof.
  unfold play_param, to_ms.
  apply emits_bind; [emits_step|]. intros t0 series Hds. apply from_option_ok in Hds.
  apply emits_bind; [emits_step|]. intros t1 entry Hget. apply lift_inv in Hget.
  apply emits_bind; [emits_step|]. intros t2 t Ht. apply lift_inv in Ht.
  apply emits_bind; [emits_step|]. intros t3 stamp Hd. apply from_option_ok in Hd.
  apply emits_bind; [emits_step|]. intros t4 x Hx. apply lift_inv in Hx.
  apply emits_bind; [repeat emits_step|]. intros t5 value_str _.
  apply emits_bind; [emits_step|]. intros t6 value _.
  apply emits_bind; [|intros; emits_step].
  emits_step; [|apply emits_emit; split; intros; discriminate].
  apply emits_bind; [emits_step|]. intros t7 y _. apply emits_emit.
  split; [intros; discriminate|]. intros p x' y' [= <- <- <-].
  exists stamp. split; [|exact Hx]. exists series, entry. unfold stamp_of.
  rewrite Ht. auto.
Qed.

Lemma playback_emits ds params :
  emits (fun ev =>
           (forall lo hi, ev <> Chart (XSetInterval lo hi)) /\
           (forall p x y, ev = Chart (SeriesAdd p x y) ->
              exists i t, observation to_datetime ds p i t /\ true_divide t (10 ^ 6) = Ok x))
        (playback to_datetime ds params).
Proof.
  unfold playback. do 2 (apply emits_bind; [emits_step|]; intros ? ? _).
  apply emits_for_each. intros vs i _. unfold play_position.
  apply emits_bind.
  - apply emits_for_each. intros vs' param _ ev Hev.
    destruct (play_param_emits ds i vs' param ev Hev) as [H1 H2]. split; [exact H1|].
    intros p x y Heq. destruct (H2 p x y Heq) as (stamp & Hobs). eauto.
  - intros ? ? _. apply emits_bind; [|intros; emits_step].
    apply emits_emit. split; intros; discriminate.
Qed.

(** The chart set-up sets the time axis to the interval it is given and
    adds no point. *)
Lemma setup_chart_emits lo0 hi0 :
  emits (fun ev =>
           (forall lo hi, ev = Chart (XSetInterval lo hi) -> lo = lo0 /\ hi = hi0) /\
           (forall p x y, ev <> Chart (SeriesAdd p x y)))
        (setup_chart lo0 hi0).
Proof.
  assert (Hother : forall c, (forall lo hi, c <> XSetInterval lo hi) ->
                             (forall p x y, c <> SeriesAdd p x y) ->
            emits (fun ev =>
              (forall lo hi, ev = Chart (XSetInterval lo hi) -> lo = lo0 /\ hi = hi0) /\
              (forall p x y, ev <> Chart (SeriesAdd p x y))) (emit (Chart c))).
  { intros c H1 H2. apply emits_emit. split.
    - intros lo hi [= ->]. exfalso. exact (H1 lo hi eq_refl).
    - intros p x y [= ->]. exact (H2 p x y eq_refl). }
  unfold setup_chart.
  repeat first
    [ emits_step
    | apply Hother; [intros; discriminate|intros; discriminate]
    | apply emits_emit; split; [intros lo hi [= <- <-]; auto|intros; discriminate]
    | match goal with |- emits _ (add_axis _ ?item) => destruct item; unfold add_axis end ].
Qed.


(** The stages an event of the script can come from. *)
Lemma script_events ev :
  ev ∈ fst (script get_json to_datetime) ->
  (forall lo hi, ev <> Chart (XSetInterval lo hi)) /\
  (forall p x y, ev <> Chart (SeriesAdd p x y)) \/
  exists trf ds pool mn mx lo0 hi0 params,
    fetch get_json to_datetime = (trf, Ok (ds, pool)) /\
    py_min pool = Ok mn /\ py_max pool = Ok mx /\
    true_divide mn (10 ^ 6) = Ok lo0 /\ true_divide mx (10 ^ 6) = Ok hi0 /\
    (ev ∈ fst (setup_chart lo0 hi0) \/ ev ∈ fst (playback to_datetime ds params)).
Proof.
  unfold script. intros H.
  apply bind_event in H as [H|(t0 & [] & _ & H)].
  { left. apply list_elem_of_singleton in H as ->. split; intros; discriminate. }
  apply bind_event in H as [H|(trf & [ds pool] & Hf & H)].
  { left. destruct (fetch_emits_prints ev H) as [m ->]. split; intros; discriminate. }
  apply bind_event in H as [H|(t1 & [mn mx] & Hr & H)].
  { exfalso. revert H. unfold time_range.
    destruct (py_min pool); [destruct (py_max pool)|]; simpl; intros H; inversion H. }
  apply bind_event in H as [H|(t2 & lo0 & Hlo & H)]; [inversion H|].
  apply bind_event in H as [H|(t3 & hi0 & Hhi & H)]; [inversion H|].
  apply lift_inv in Hlo, Hhi.
  assert (Hmin : py_min pool = Ok mn /\ py_max pool = Ok mx).
  { revert Hr. unfold time_range.
    destruct (py_min pool); [destruct (py_max pool)|]; simpl; intros [= _ <- <-] || discriminate.
    auto. }
  destruct Hmin as [Hmin Hmax].
  right. exists trf, ds, pool, mn, mx, lo0, hi0.
  apply bind_event in H as [H|(t4 & params & _ & H)]; [exists []; auto 10|].
  exists params.
  apply bind_event in H as [H|(t5 & vs & _ & H)]; [auto 10|inversion H].
Qed.


End AxisInterval.


(** ** Skipped parameters downstream *)

Lemma playback_without_wind to_datetime (ds : gmap string json) params :
  ds !! "wind"%string = None -> playback to_datetime ds params = ([], Err KeyError).
Proof. intros H. unfold playback. rewrite H. reflexivity. Qed.

(** C7 does not hold of the code: with the wind request answered by the
    API's error body the fetch loop skips wind and the playback loop dies
    from [KeyError] at [data_store['wind']]; with another parameter
    skipped it dies from [KeyError] in the first round, after the wind
    point; with every parameter skipped [min] raises [ValueError]. *)
Theorem skipped_parameter_crashes_downstream :
  snd (script (respond (bodies_with_error "wind")) api_to_datetime) = Err KeyError /\
  snd (script (respond (bodies_with_error "water_level")) api_to_datetime) = Err KeyError /\
  snd (script (respond (map (fun item => (fst item, error_body)) sample_bodies))
              api_to_datetime) = Err ValueError.
Proof. repeat split; vm_compute; exact eq_refl. Qed.

(** ** The properties at the sample data *)





(** Every series of the sample dataset covers the two wind positions. *)
Lemma playback_in_bounds_witness :
  (forall tr e, playback api_to_datetime sample_store (map fst urls) = (tr, Err e) ->
                e <> IndexError) /\
  (forall wind n i param series,
      sample_store !! "wind"%string = Some wind -> py_len wind = Ok n -> i ∈ seq 0 n ->
      sample_store !! param = Some series -> py_getitem_int series i <> Err IndexError).
Proof.
  apply (playback_in_bounds api_to_datetime sample_store (map fst urls)).
  intros wind n Hw Hn. vm_compute in Hw. injection Hw as <-. injection Hn as <-.
  apply (bool_decide_unpack _). vm_compute. exact I.
Defined.

(** * Further properties of the script *)

(** ** Where points come from *)

Section PointProperties.

Variable to_datetime : json -> option Z.

Local Abbreviation six := (map fst urls).

(** The value the inner loop tests, for one of the six parameters. *)
Lemma play_param_value (vs : option json) param t value_str entry :
  param ∈ six ->
  (if String.eqb param "wind" then
     s <- lift (py_getitem_str entry "s") ;; ret (Some s)
   else if bool_decide (param ∈ v_params) then
     v <- lift (py_getitem_str entry "v") ;; ret (Some v)
   else ret vs) = (t, Ok value_str) ->
  exists value, value_str = Some value /\
                py_getitem_str entry (value_field param) = Ok value.
Proof.
  intros Hp H.
  destruct (known_param_field param Hp) as [[Hw Hf]|(Hw & Hv & Hf)];
    rewrite Hw in H; [|rewrite Hv in H]; rewrite Hf;
    apply bind_inv_ok in H as (t1 & value & t2 & Hg & Hr & _);
    apply lift_inv in Hg; injection Hr as _ <-; eauto.
Qed.

Lemma play_param_point ds i vs param :
  param ∈ six ->
  emits (fun ev => forall p x y, ev = Chart (SeriesAdd p x y) ->
           p = param /\
           exists series kv tj t value,
             ds !! p = Some series /\
             py_getitem_int series i = Ok (JObj kv) /\
             assoc "t" kv = Some tj /\ to_datetime tj = Some t /\
             true_divide t (10 ^ 6) = Ok x /\
             assoc (value_field p) kv = Some value /\
             py_truthy value = true /\ py_float value = Ok y)
        (play_param to_datetime ds i vs param).
Proof.
  intros Hp. unfold play_param, to_ms.
  apply emits_bind; [apply emits_from_option|]. intros t0 series Hds. apply from_option_ok in Hds.
  apply emits_bind; [apply emits_lift|]. intros t1 entry Hget. apply lift_inv in Hget.
  apply emits_bind; [apply emits_lift|]. intros t2 tj Ht. apply lift_inv in Ht.
  apply emits_bind; [apply emits_from_option|]. intros t3 stamp Hd. apply from_option_ok in Hd.
  apply emits_bind; [apply emits_lift|]. intros t4 x Hx. apply lift_inv in Hx.
  apply emits_bind.
  { destruct (String.eqb param "wind"); [|destruct (bool_decide (param ∈ v_params))];
      try (apply emits_bind; [apply emits_lift|intros; apply emits_ret]); apply emits_ret. }
  intros t5 value_str Hsel.
  destruct (play_param_value vs param t5 value_str entry Hp Hsel)
    as (value & -> & Hv).
  apply emits_bind; [apply emits_from_option|]. intros t6 value' Hval.
  apply from_option_ok in Hval. injection Hval as <-.
  apply emits_bind; [|intros; apply emits_ret].
  destruct (py_truthy value && py_ne_empty value) eqn:Htruthy;
    [|apply emits_emit; intros; discriminate].
  apply emits_bind; [apply emits_lift|]. intros t7 y Hy. apply lift_inv in Hy.
  apply emits_emit. intros p x' y' [= <- <- <-]. split; [reflexivity|].
  destruct entry; simpl in Ht, Hv; try discriminate.
  destruct (assoc "t" fields) as [tj'|] eqn:Etj; [|discriminate]. injection Ht as ->.
  destruct (assoc (value_field param) fields) as [v'|] eqn:Ev; [|discriminate].
  injection Hv as ->. apply andb_true_iff in Htruthy as [Htr _].
  exists series, fields, tj, stamp, value. auto 10.
Qed.

(** X1: whatever the dataset and however the run ends, every point the
    playback appends to a series is a stored record of that series at a
    position below the length of the wind series: its x is the record's
    instant in milliseconds and its y the float of the record's value
    field ([s] for wind, [v] otherwise), which is not empty. *)
Theorem plotted_point_provenance ds p x y :
  Chart (SeriesAdd p x y) ∈ fst (playback to_datetime ds six) ->
  exists wind n i series kv tj t value,
    ds !! "wind"%string = Some wind /\ py_len wind = Ok n /\ (i < n)%nat /\
    p ∈ six /\ ds !! p = Some series /\
    py_getitem_int series i = Ok (JObj kv) /\
    assoc "t" kv = Some tj /\ to_datetime tj = Some t /\
    true_divide t (10 ^ 6) = Ok x /\
    assoc (value_field p) kv = Some value /\
    py_truthy value = true /\ py_float value = Ok y.
Proof.
  intros H. unfold playback in H.
  apply bind_event in H as [H|(t0 & wind & Hw & H)];
    [exfalso; exact (emits_from_option (fun _ => False) _ _ _ H)|].
  apply from_option_ok in Hw.
  apply bind_event in H as [H|(t1 & n & Hn & H)]; [inversion H|]. apply lift_inv in Hn.
  revert H. generalize (@None json).
  assert (Hloop : forall vs,
    emits (fun ev => forall p x y, ev = Chart (SeriesAdd p x y) ->
             exists i series kv tj t value,
               (i < n)%nat /\ p ∈ six /\ ds !! p = Some series /\
               py_getitem_int series i = Ok (JObj kv) /\
               assoc "t" kv = Some tj /\ to_datetime tj = Some t /\
               true_divide t (10 ^ 6) = Ok x /\
               assoc (value_field p) kv = Some value /\
               py_truthy value = true /\ py_float value = Ok y)
          (for_each (seq 0 n) (play_position to_datetime ds six) vs)).
  { apply emits_for_each. intros vs i Hi. apply elem_of_seq in Hi. unfold play_position.
    apply emits_bind.
    - apply emits_for_each. intros vs' param Hparam ev Hev q x' y' Heq.
      destruct (play_param_point ds i vs' param Hparam ev Hev q x' y' Heq)
        as (-> & series & kv & tj & t & value & Hrest).
      exists i, series, kv, tj, t, value. split; [lia|]. split; [exact Hparam|exact Hrest].
    - intros ? ? _. apply emits_bind; [|intros; apply emits_ret].
      apply emits_emit. intros; discriminate. }
  intros vs H. destruct (Hloop vs _ H p x y eq_refl) as (i & series & kv & tj & t & value & Hrest).
  exists wind, n, i, series, kv, tj, t, value. auto.
Qed.

(** *** The events of one parameter *)





(** *** Progressive x *)




End PointProperties.

(** ** The script as a whole *)

Section ScriptProperties.

Variable get_json : string -> option json.
Variable to_datetime : json -> option Z.

Local Abbreviation six := (map fst urls).
Local Abbreviation step := (fetch_param get_json to_datetime).
Local Abbreviation run := (script get_json to_datetime).

(** X4: in every run that reaches the chart, the interval put on the
    time axis is well ordered: its lower end is not above its upper end. *)
Theorem axis_interval_ordered lo hi :
  Chart (XSetInterval lo hi) ∈ fst (script get_json to_datetime) ->
  SFleb lo hi = true.
Proof.
  intros Hi.
  apply script_events in Hi as [[Hi _]|
    (trf & ds & pool & mn & mx & lo0 & hi0 & params & Hf & Hmin & Hmax & Hlo & Hhi & Hi)];
    [exfalso; exact (Hi lo hi eq_refl)|].
  destruct Hi as [Hi|Hi]; [|exfalso; exact (proj1 (playback_emits _ _ _ _ Hi) lo hi eq_refl)].
  destruct (proj1 (setup_chart_emits lo0 hi0 _ Hi) lo hi eq_refl) as [<- <-].
  assert (Hne : pool <> []) by (intros ->; discriminate).
  destruct (py_min_spec pool Hne) as (mn0 & Hmn0 & Hin & _).
  destruct (py_max_spec pool Hne) as (mx0 & Hmx0 & _ & Hge).
  rewrite Hmin in Hmn0. injection Hmn0 as <-. rewrite Hmax in Hmx0. injection Hmx0 as <-.
  apply (true_divide_mono mn mx (10 ^ 6)); [reflexivity|auto|assumption|assumption].
Qed.

Lemma fetch_loop_request_fails l st param url :
  (param, url) ∈ l -> get_json url = None ->
  exists tr e, for_each l step st = (tr, Err e).
Proof.
  revert st. induction l as [|[p u] l IH]; intros st Hin Hg; [inversion Hin|].
  cbn [for_each]. destruct (step st (p, u)) as [t1 [st1|e1]] eqn:Hs; [|cbn; eauto].
  apply elem_of_cons in Hin as [[= <- <-]|Hin].
  - exfalso. destruct st as [ds pool]. destruct st1 as [ds1 pool1].
    apply fetch_param_inv in Hs as (data & Hg' & _). congruence.
  - destruct (IH st1 Hin Hg) as (tr & e & Hrun). cbn. rewrite Hrun. eauto.
Qed.

(** X5: a request that fails is fatal: the script ends in an exception
    and, apart from setting the license key, makes no call on the
    charting library; no chart is created or opened. *)
Theorem failed_request_stops_before_chart param url :
  (param, url) ∈ urls -> get_json url = None ->
  (exists e, snd run = Err e) /\
  (forall c, Chart c ∈ fst run -> c = SetLicense "LICENSE_KEY").
Proof.
  intros Hin Hg.
  destruct (fetch_loop_request_fails urls (∅, []) param url Hin Hg) as (tr & e & Hf).
  pose proof (fetch_emits_prints get_json to_datetime) as Hpr.
  unfold script, fetch in *. rewrite Hf in *. cbn. split; [eauto|].
  intros c Hc. apply elem_of_cons in Hc as [[= ->]|Hc]; [reflexivity|].
  destruct (Hpr _ Hc) as [m Hm]. discriminate.
Qed.

Lemma uncovered_series_has_no_record series i entry :
  covers 1 series = false -> py_getitem_int series i <> Ok entry.
Proof.
  unfold covers. destruct series; cbn; try discriminate.
  - destruct s; [|discriminate]. intros _. destruct i; discriminate.
  - destruct items; [|discriminate]. intros _. rewrite lookup_nil. discriminate.
Qed.

(** X6: a fetch that brings no record at all, every parameter skipped or
    answered with an empty list, ends the script with the [ValueError]
    of [min], after the skip notices and before any chart is created. *)
Theorem empty_fetch_stops_before_chart tr (ds : gmap string json) pool :
  fetch get_json to_datetime = (tr, Ok (ds, pool)) ->
  map_Forall (fun _ series => covers 1 series = false) ds ->
  run = (Chart (SetLicense "LICENSE_KEY") :: tr, Err ValueError).
Proof.
  intros Hf Hno. assert (Hpool : pool = []).
  { unfold fetch in Hf.
    destruct (fetch_loop_inv _ _ _ _ _ _ _ _ Hf urls_distinct) as (I1 & _).
    { intros p _. apply lookup_empty. }
    { intros t Ht. inversion Ht. }
    destruct pool as [|t pool]; [reflexivity|]. exfalso.
    destruct (I1 t ltac:(left)) as (p & i & series & entry & Hds & Hget & _).
    exact (uncovered_series_has_no_record series i entry (Hno p series Hds) Hget). }
  subst pool. unfold script. rewrite Hf. cbn. rewrite app_nil_r. reflexivity.
Qed.

(** *** A run on well-formed responses *)






End ScriptProperties.

(** ** Series of unequal length *)


Section UnequalSeries.

Variable to_datetime : json -> option Z.

Local Abbreviation six := (map fst urls).
Local Abbreviation play := (play_param to_datetime).






End UnequalSeries.

(** ** The time range *)


(** ** The conversion to milliseconds *)

(** X10: the conversion to milliseconds of a 64-bit instant, which every
    [Timestamp.value] is, never raises and gives a finite float. *)
Theorem millisecond_conversion_total (t : Z) :
  int64 t = true ->
  exists x, to_ms t = ([], Ok x) /\ is_finite_float x = true.
Proof.
  intros Ht. destruct (true_divide_int64 t) as [x Hx]; [unfold int64 in Ht; lia|].
  exists x. unfold to_ms. rewrite Hx. split; [reflexivity|].
  unfold true_divide in Hx. destruct (10 ^ 6 =? 0); [discriminate|].
  destruct (is_finite_float (round_ratio _ _ _)) eqn:Hfin; [|discriminate].
  injection Hx as <-. exact Hfin.
Qed.

(** ** Chart set-up *)


(** ** Whole milliseconds *)

Lemma ge_pow2_scale (n d c k : Z) :
  0 < c -> ge_pow2 (n * c) (d * c) k = ge_pow2 n d k.
Proof.
  intros Hc. unfold ge_pow2. apply eq_iff_eq_true. rewrite !Z.leb_le.
  pose proof (pow2_pos (Z.max 0 k) ltac:(lia)).
  pose proof (pow2_pos (Z.max 0 (- k)) ltac:(lia)).
  split; intros; nia.
Qed.

Lemma ratio_mag_unique (n d k : Z) :
  0 < n -> 0 < d ->
  ge_pow2 n d (k - 1) = true -> ge_pow2 n d k = false -> ratio_mag n d = k.
Proof.
  intros Hn Hd Hlo Hup. destruct (ratio_mag_spec n d Hn Hd) as [Hlo' Hup'].
  destruct (Z.lt_trichotomy (ratio_mag n d) k) as [Hlt|[Heq|Hgt]]; [|exact Heq|]; exfalso.
  - apply (ge_pow2_mono_k _ _ (ratio_mag n d)) in Hlo; [congruence|assumption|lia].
  - apply (ge_pow2_mono_k _ _ k) in Hlo'; [congruence|assumption|lia].
Qed.

Lemma ratio_mag_scale (n d c : Z) :
  0 < n -> 0 < d -> 0 < c -> ratio_mag (n * c) (d * c) = ratio_mag n d.
Proof.
  intros Hn Hd Hc. destruct (ratio_mag_spec n d Hn Hd) as [Hlo Hup].
  apply ratio_mag_unique; [nia|nia| |]; rewrite ge_pow2_scale; assumption.
Qed.

Lemma round_half_even_scale (num den c : Z) :
  0 < den -> 0 < c -> round_half_even (num * c) (den * c) = round_half_even num den.
Proof.
  intros Hd Hc. unfold round_half_even.
  rewrite Z.div_mul_cancel_r by lia. rewrite Z.mul_mod_distr_r by lia.
  replace (2 * (num mod den * c)) with (2 * (num mod den) * c) by ring.
  rewrite <- (Zmult_compare_compat_r (2 * (num mod den)) den c) by lia. reflexivity.
Qed.

(** The rounding depends on the quotient only. *)
Lemma round_ratio_scale (neg : bool) (n d c : Z) :
  0 <= n -> 0 < d -> 0 < c -> round_ratio neg (n * c) (d * c) = round_ratio neg n d.
Proof.
  intros Hn Hd Hc. destruct (Z.eq_dec n 0) as [->|Hne]; [reflexivity|].
  unfold round_ratio. rewrite (proj2 (Z.eqb_neq n 0)) by lia.
  rewrite (proj2 (Z.eqb_neq (n * c) 0)) by nia.
  rewrite ratio_mag_scale by lia.
  set (e := fexp prec emax (ratio_mag n d)).
  pose proof (pow2_pos (Z.max 0 e) ltac:(lia)).
  replace (n * c * 2 ^ Z.max 0 (- e)) with (n * 2 ^ Z.max 0 (- e) * c) by ring.
  replace (d * c * 2 ^ Z.max 0 e) with (d * 2 ^ Z.max 0 e * c) by ring.
  rewrite round_half_even_scale by nia. reflexivity.
Qed.

(** The float of an integer below [2^53] in absolute value is exact:
    its mantissa is the integer, shifted to 53 bits. *)
Lemma round_ratio_int_exact (neg : bool) (n : Z) :
  0 < n < 2 ^ 53 ->
  let mag := ratio_mag n 1 in
  1 <= mag <= 53 /\
  2 ^ 52 <= n * 2 ^ (53 - mag) < 2 ^ 53 /\
  round_ratio neg n 1 = S754_finite neg (Z.to_pos (n * 2 ^ (53 - mag))) (mag - 53).
Proof.
  intros Hn mag. destruct (ratio_mag_spec n 1 ltac:(lia) ltac:(lia)) as [Hlo Hup].
  fold mag in Hlo, Hup.
  assert (Hmag : 1 <= mag <= 53).
  { split.
    - destruct (Z.le_gt_cases 1 mag) as [|Hsmall]; [assumption|exfalso].
      apply not_true_iff_false in Hup. apply Hup. unfold ge_pow2. apply Z.leb_le.
      rewrite (Z.max_l 0 mag), (Z.max_r 0 (- mag)) by lia.
      pose proof (pow2_pos (- mag) ltac:(lia)). change (2 ^ 0) with 1. nia.
    - destruct (Z.le_gt_cases mag 53) as [|Hbig]; [assumption|exfalso].
      unfold ge_pow2 in Hlo. apply Z.leb_le in Hlo.
      rewrite (Z.max_r 0 (mag - 1)), (Z.max_l 0 (- (mag - 1))) in Hlo by lia.
      change (2 ^ 0) with 1 in Hlo.
      assert (2 ^ 53 <= 2 ^ (mag - 1)) by (apply Z.pow_le_mono_r; lia). lia. }
  assert (Hbr : 2 ^ (mag - 1) <= n < 2 ^ mag).
  { split.
    - unfold ge_pow2 in Hlo. apply Z.leb_le in Hlo.
      rewrite (Z.max_r 0 (mag - 1)), (Z.max_l 0 (- (mag - 1))) in Hlo by lia.
      change (2 ^ 0) with 1 in Hlo. lia.
    - apply not_true_iff_false in Hup. unfold ge_pow2 in Hup. rewrite Z.leb_le in Hup.
      rewrite (Z.max_r 0 mag), (Z.max_l 0 (- mag)) in Hup by lia.
      change (2 ^ 0) with 1 in Hup. lia. }
  assert (Hm : 2 ^ 52 <= n * 2 ^ (53 - mag) < 2 ^ 53).
  { pose proof (pow2_pos (53 - mag) ltac:(lia)) as Hp.
    assert (E1 : 2 ^ (mag - 1) * 2 ^ (53 - mag) = 2 ^ 52)
      by (rewrite <- Z.pow_add_r by lia; f_equal; lia).
    assert (E2 : 2 ^ mag * 2 ^ (53 - mag) = 2 ^ 53)
      by (rewrite <- Z.pow_add_r by lia; f_equal; lia).
    revert Hbr Hp E1 E2. generalize (2 ^ (53 - mag)) (2 ^ (mag - 1)) (2 ^ mag) (2 ^ 52) (2 ^ 53).
    intros P A B C D Hbr Hp E1 E2. nia. }
  split; [exact Hmag|]. split; [exact Hm|].
  rewrite round_ratio_cases by lia. cbv zeta. fold mag. rewrite binary64_fexp.
  rewrite (Z.max_l (mag - 53) (-1074)) by lia.
  rewrite (Z.max_l 0 (mag - 53)), (Z.max_r 0 (- (mag - 53))) by lia.
  replace (- (mag - 53)) with (53 - mag) by lia. change (2 ^ 0) with 1.
  assert (Hr : round_half_even (n * 2 ^ (53 - mag)) (1 * 1) = n * 2 ^ (53 - mag)).
  { unfold round_half_even. change (1 * 1) with 1. rewrite Z.div_1_r, Z.mod_1_r. reflexivity. }
  rewrite Hr. rewrite (proj2 (Z.eqb_neq _ 0)) by lia.
  rewrite (proj2 (Z.eqb_neq _ (2 ^ 53))) by lia.
  rewrite (proj2 (Z.leb_le (mag - 53) 971)) by lia. reflexivity.
Qed.

Lemma SFltb_finite_pos (m1 m2 : positive) (e1 e2 : Z) :
  e1 < e2 \/ (e1 = e2 /\ (m1 < m2)%positive) ->
  SFltb (S754_finite false m1 e1) (S754_finite false m2 e2) = true.
Proof.
  unfold SFltb, SFcompare. intros [H|[-> H]].
  - rewrite (proj2 (Z.compare_lt_iff e1 e2) H). reflexivity.
  - rewrite Z.compare_refl. change (Pos.compare_cont Eq m1 m2) with (m1 ?= m2)%positive.
    rewrite (proj2 (Pos.compare_lt_iff m1 m2) H). reflexivity.
Qed.

Lemma SFltb_finite_neg (m1 m2 : positive) (e1 e2 : Z) :
  e2 < e1 \/ (e1 = e2 /\ (m2 < m1)%positive) ->
  SFltb (S754_finite true m1 e1) (S754_finite true m2 e2) = true.
Proof.
  unfold SFltb, SFcompare. intros [H|[-> H]].
  - rewrite (proj2 (Z.compare_gt_iff e1 e2) H). reflexivity.
  - rewrite Z.compare_refl. change (Pos.compare_cont Eq m1 m2) with (m1 ?= m2)%positive.
    rewrite (proj2 (Pos.compare_gt_iff m1 m2) H). reflexivity.
Qed.

(** Two positive integers below [2^53], by their exact floats. *)
Lemma int_floats_ordered (n1 n2 : Z) :
  0 < n1 -> n1 < n2 -> n2 < 2 ^ 53 ->
  let e1 := ratio_mag n1 1 - 53 in
  let e2 := ratio_mag n2 1 - 53 in
  e1 < e2 \/
  (e1 = e2 /\ (Z.to_pos (n1 * 2 ^ (53 - ratio_mag n1 1))
               < Z.to_pos (n2 * 2 ^ (53 - ratio_mag n2 1)))%positive).
Proof.
  intros H1 H12 H2 e1 e2.
  pose proof (ratio_mag_mono n1 n2 1 H1 ltac:(lia) ltac:(lia)) as Hmono.
  destruct (round_ratio_int_exact false n1 ltac:(lia)) as (Hm1 & Hb1 & _).
  destruct (round_ratio_int_exact false n2 ltac:(lia)) as (Hm2 & Hb2 & _).
  cbv zeta in *. destruct (Z.eq_dec (ratio_mag n1 1) (ratio_mag n2 1)) as [Heq|Hne].
  - right. subst e1 e2. split; [lia|]. rewrite <- Heq in *.
    pose proof (pow2_pos (53 - ratio_mag n1 1) ltac:(lia)).
    assert (n1 * 2 ^ (53 - ratio_mag n1 1) < n2 * 2 ^ (53 - ratio_mag n1 1)) by nia.
    lia.
  - left. subst e1 e2. lia.
Qed.

Lemma scaled_ms_ratio (s : bool) (ms : Z) :
  round_ratio s (Z.abs ms * 10 ^ 6) (10 ^ 6) = round_ratio s (Z.abs ms) 1.
Proof.
  rewrite <- (round_ratio_scale s (Z.abs ms) 1 (10 ^ 6)) by lia. f_equal.
Qed.

Lemma true_divide_ms_sign (ms : Z) : (ms * 10 ^ 6 <? 0) = (ms <? 0).
Proof. destruct (Z.ltb_spec ms 0), (Z.ltb_spec (ms * 10 ^ 6) 0); lia. Qed.

(** X12: for an instant that is a whole number of milliseconds, as the
    instants of the API are, the conversion [t.value / 10**6] gives
    the float of that number of milliseconds. *)
Theorem whole_milliseconds_convert_as_integers (ms : Z) :
  true_divide (ms * 10 ^ 6) (10 ^ 6) = float_of_int ms.
Proof.
  unfold true_divide, float_of_int. change (10 ^ 6 =? 0) with false. cbv iota.
  change (10 ^ 6 <? 0) with false. rewrite xorb_false_r, true_divide_ms_sign.
  rewrite Z.abs_mul. change (Z.abs (10 ^ 6)) with (10 ^ 6). rewrite !scaled_ms_ratio.
  reflexivity.
Qed.

Lemma true_divide_ms_exact (ms : Z) :
  - 2 ^ 53 < ms < 2 ^ 53 ->
  true_divide (ms * 10 ^ 6) (10 ^ 6) = Ok (round_ratio (ms <? 0) (Z.abs ms) 1).
Proof.
  intros Hk. unfold true_divide. change (10 ^ 6 =? 0) with false. cbv iota.
  change (10 ^ 6 <? 0) with false. rewrite xorb_false_r, true_divide_ms_sign.
  rewrite Z.abs_mul. change (Z.abs (10 ^ 6)) with (10 ^ 6). rewrite !scaled_ms_ratio.
  rewrite (round_ratio_finite _ _ _ 53); [reflexivity|lia|lia|lia|lia].
Qed.

(** X13: instants that are whole milliseconds within [2^53] ms of the
    epoch keep their order strictly under the conversion: two different
    instants never get the same x-coordinate. *)
Theorem whole_milliseconds_stay_distinct (ms1 ms2 : Z) :
  - 2 ^ 53 < ms1 -> ms1 < ms2 -> ms2 < 2 ^ 53 ->
  exists x1 x2,
    true_divide (ms1 * 10 ^ 6) (10 ^ 6) = Ok x1 /\
    true_divide (ms2 * 10 ^ 6) (10 ^ 6) = Ok x2 /\
    SFltb x1 x2 = true.
Proof.
  intros H1 H12 H2. rewrite !true_divide_ms_exact by lia. eexists _, _. split; [reflexivity|].
  split; [reflexivity|].
  destruct (Z.ltb_spec ms1 0) as [N1|N1]; destruct (Z.ltb_spec ms2 0) as [N2|N2]; try lia.
  - destruct (round_ratio_int_exact true (Z.abs ms1) ltac:(lia)) as (_ & _ & ->).
    destruct (round_ratio_int_exact true (Z.abs ms2) ltac:(lia)) as (_ & _ & ->).
    apply SFltb_finite_neg.
    destruct (int_floats_ordered (Z.abs ms2) (Z.abs ms1)) as [H|[H H']]; [lia..| |]; cbv zeta in *.
    + left. exact H.
    + right. split; [lia|exact H'].
  - destruct (round_ratio_int_exact true (Z.abs ms1) ltac:(lia)) as (_ & _ & ->).
    destruct (Z.eq_dec ms2 0) as [->|Hpos]; [reflexivity|].
    destruct (round_ratio_int_exact false (Z.abs ms2) ltac:(lia)) as (_ & _ & ->).
    reflexivity.
  - destruct (round_ratio_int_exact false (Z.abs ms2) ltac:(lia)) as (_ & _ & ->).
    destruct (Z.eq_dec ms1 0) as [->|Hpos]; [reflexivity|].
    destruct (round_ratio_int_exact false (Z.abs ms1) ltac:(lia)) as (_ & _ & ->).
    apply SFltb_finite_pos. apply int_floats_ordered; lia.
Qed.

(** ** A parameter without a series *)

Section MissingSeries.

Variable to_datetime : json -> option Z.

Local Abbreviation six := (map fst urls).
Local Abbreviation play := (play_param to_datetime).




End MissingSeries.


(** ** The further properties at the sample data *)

(** The first point of the sample playback is the first wind record. *)
Lemma plotted_point_provenance_witness :
  exists wind n i series kv tj t value,
    sample_store !! "wind"%string = Some wind /\ py_len wind = Ok n /\ (i < n)%nat /\
    "wind"%string ∈ map fst urls /\ sample_store !! "wind"%string = Some series /\
    py_getitem_int series i = Ok (JObj kv) /\
    assoc "t" kv = Some tj /\ api_to_datetime tj = Some t /\
    true_divide t (10 ^ 6) = Ok (S754_finite false 7079303577600000 (-12)) /\
    assoc (value_field "wind") kv = Some value /\
    py_truthy value = true /\ py_float value = Ok float_2_5.
Proof.
  apply (plotted_point_provenance api_to_datetime sample_store).
  apply (list_elem_of_lookup_2 _ 0%nat). vm_compute; exact eq_refl.
Defined.



(** The axis interval of the sample run. *)
Lemma axis_interval_ordered_witness :
  SFleb (S754_finite false 7079303577600000 (-12))
        (S754_finite false 7079305052160000 (-12)) = true.
Proof.
  apply (axis_interval_ordered (respond sample_bodies) api_to_datetime).
  apply (list_elem_of_lookup_2 _ 4%nat). vm_compute; exact eq_refl.
Defined.

(** No request is answered. *)
Lemma failed_request_stops_before_chart_witness :
  (exists e, snd (script (respond []) api_to_datetime) = Err e) /\
  (forall c, Chart c ∈ fst (script (respond []) api_to_datetime) ->
             c = SetLicense "LICENSE_KEY").
Proof.
  apply (failed_request_stops_before_chart (respond []) api_to_datetime "wind"%string wind_url).
  - left.
  - reflexivity.
Defined.

(** Every request answered with an empty record list. *)
Lemma empty_fetch_stops_before_chart_witness :
  script (respond empty_bodies) api_to_datetime
  = (Chart (SetLicense "LICENSE_KEY") :: fst empty_fetch, Err ValueError).
Proof.
  apply (empty_fetch_stops_before_chart (respond empty_bodies) api_to_datetime
           (fst empty_fetch) (fst (final_state (∅, []) empty_fetch))
           (snd (final_state (∅, []) empty_fetch))).
  - vm_compute; exact eq_refl.
  - apply (bool_decide_unpack _). vm_compute. exact I.
Defined.




(** Midnight and six past midnight of 2024-10-08, in milliseconds. *)
Lemma whole_milliseconds_stay_distinct_witness :
  exists x1 x2,
    true_divide (1728345600000 * 10 ^ 6) (10 ^ 6) = Ok x1 /\
    true_divide (1728345960000 * 10 ^ 6) (10 ^ 6) = Ok x2 /\
    SFltb x1 x2 = true.
Proof. apply whole_milliseconds_stay_distinct; reflexivity. Defined.

(** The first instant of the sample data. *)
Lemma millisecond_conversion_total_witness :
  exists x, to_ms 1728345600000000000 = ([], Ok x) /\ is_finite_float x = true.
Proof. apply millisecond_conversion_total. reflexivity. Defined.
